(** * Notes service: access control and ownership of user notes

    A shallow embedding of [app/crud.py], [app/routers/notes.py] and
    [app/schemas.py].  The SQL store is a record of two tables kept in
    storage order; an ORM session is a pair of the committed store and the
    in-flight unit of work; [db.commit()] checks the constraints of the
    schema and [db.rollback()] throws the unit of work away.  Functions that
    take [db: Session] in the source run in the monad [M] below. *)

From Stdlib Require Import ZArith Lia.
From stdpp Require Import base decidable option list gmap strings.

Local Open Scope string_scope.
Local Open Scope Z_scope.

(** ** Rows of the two tables (the columns that [app/schemas.py] exposes).

    A column that an update may set to [None] is an [option]; timestamps are
    generated by the store and are not part of the model. *)

Module User.
Record t := mk {
  id : Z;
  email : string;
  username : string;
  hashed_password : string;
  is_active : bool
}.
#[global] Instance eq_dec : EqDecision t.
Proof. solve_decision. Defined.
End User.

Module Note.
Record t := mk {
  id : Z;
  title : option string;
  content : option string;
  is_public : option bool;
  owner_id : Z
}.
#[global] Instance eq_dec : EqDecision t.
Proof. solve_decision. Defined.
End Note.

(** ** Request schemas of [app/schemas.py] *)

Record UserCreate := {
  uc_email : string;
  uc_username : string;
  uc_password : string
}.

(** [NoteBase]/[NoteCreate]: [title: str], [content: str],
    [is_public: bool = False]. *)
Record NoteCreate := {
  nc_title : string;
  nc_content : string;
  nc_is_public : bool
}.

(** A field of a partial-update schema: either not supplied by the caller,
    or supplied with a value (which, the field being [Optional], may be
    [None]).  This is what [dict(exclude_unset=True)] distinguishes. *)
Inductive Field (A : Type) := unset | supplied (v : A).
Arguments unset {A}.
Arguments supplied {A} v.

(** [NoteUpdate]: three independently optional fields. *)
Record NoteUpdate := {
  nu_title : Field (option string);
  nu_content : Field (option string);
  nu_is_public : Field (option bool)
}.

(** One entry [(field, value)] of the dict of a note schema. *)
Inductive NoteAttr :=
| attr_title (value : option string)
| attr_content (value : option string)
| attr_is_public (value : option bool).

Definition attr_name (a : NoteAttr) : string :=
  match a with
  | attr_title _ => "title"
  | attr_content _ => "content"
  | attr_is_public _ => "is_public"
  end.

Definition dict_entry {A} (mk : A → NoteAttr) (f : Field A) : list NoteAttr :=
  match f with
  | unset => []
  | supplied v => [mk v]
  end.

(** [note_update.dict(exclude_unset=True)], in declaration order. *)
Definition NoteUpdate_dict_exclude_unset (u : NoteUpdate) : list NoteAttr :=
  dict_entry attr_title (nu_title u) ++
  dict_entry attr_content (nu_content u) ++
  dict_entry attr_is_public (nu_is_public u).

(** [setattr(db_note, field, value)] on the columns of a row. *)
Definition setattr (n : Note.t) (a : NoteAttr) : Note.t :=
  match a with
  | attr_title v =>
      Note.mk (Note.id n) v (Note.content n) (Note.is_public n) (Note.owner_id n)
  | attr_content v =>
      Note.mk (Note.id n) (Note.title n) v (Note.is_public n) (Note.owner_id n)
  | attr_is_public v =>
      Note.mk (Note.id n) (Note.title n) (Note.content n) v (Note.owner_id n)
  end.

(** The constructor call of [create_note], the fields of [note.dict()]
    together with [owner_id=user_id]: a transient object, a row that still
    waits for the primary key the store assigns. *)
Definition Note_new (note : NoteCreate) (owner_id : Z) (pk : Z) : Note.t :=
  Note.mk pk (Some (nc_title note)) (Some (nc_content note))
          (Some (nc_is_public note)) owner_id.

(** ** JSON request bodies *)

Inductive jval := JNull | JBool (b : bool) | JNum (z : Z) | JStr (s : string).

(** ** The store and the ORM session *)

Record Db := {
  users : list User.t;
  notes : list Note.t;
  users_id_seq : Z;
  notes_id_seq : Z
}.

Definition empty_db : Db :=
  {| users := []; notes := []; users_id_seq := 1; notes_id_seq := 1 |}.

Definition with_notes (d : Db) (l : list Note.t) : Db :=
  {| users := users d; notes := l;
     users_id_seq := users_id_seq d; notes_id_seq := notes_id_seq d |}.

Record Session := {
  store : Db;   (* what is committed *)
  work : Db     (* the unit of work: the store as this session sees it *)
}.

(** Exceptions raised in the source: SQLAlchemy's, FastAPI's. *)
Inductive exn :=
| IntegrityError
| InvalidRequestError
| HTTPException (status_code : Z) (detail : string)
| RequestValidationError.

Definition HTTP_400_BAD_REQUEST : Z := 400.
Definition HTTP_401_UNAUTHORIZED : Z := 401.
Definition HTTP_404_NOT_FOUND : Z := 404.

Definition Message : Type := string.

Inductive outcome (A : Type) := Return (a : A) | Raise (e : exn).
Arguments Return {A} a.
Arguments Raise {A} e.

Definition M (A : Type) : Type := Session → outcome A * Session.

Definition ret {A} (a : A) : M A := λ s, (Return a, s).
Definition raise {A} (e : exn) : M A := λ s, (Raise e, s).
Definition bind {A B} (m : M A) (k : A → M B) : M B :=
  λ s, match m s with
       | (Return a, s') => k a s'
       | (Raise e, s') => (Raise e, s')
       end.

Declare Scope session_scope.
Notation "x ← m ; k" := (bind m (λ x, k))
  (at level 20, m at level 100, k at level 200, only parsing) : session_scope.
Notation "m ;; k" := (bind m (λ _, k))
  (at level 100, k at level 200, only parsing, right associativity)
  : session_scope.
Local Open Scope session_scope.

(** [try: body except IntegrityError: handler] *)
Definition try_except_IntegrityError {A} (body handler : M A) : M A :=
  λ s, match body s with
       | (Raise IntegrityError, s') => handler s'
       | r => r
       end.

(** [db.query(...)...]: a read of the unit of work. *)
Definition query {A} (q : Db → A) : M A := λ s, (Return (q (work s)), s).

Definition modify_work (f : Db → Db) : M unit :=
  λ s, (Return (), {| store := store s; work := f (work s) |}).

(** [db.rollback()] *)
Definition rollback : M unit :=
  λ s, (Return (), {| store := store s; work := store s |}).

(** A request opens a session on the store ([get_db]) and closes it when
    the handler is done; what was not committed is lost. *)
Definition open_session (d : Db) : Session := {| store := d; work := d |}.

Definition run {A} (m : M A) (d : Db) : outcome A * Db :=
  let '(r, s) := m (open_session d) in (r, store s).

(** ** External collaborators

    Code this repository calls but does not contain: the password hasher
    and the token verifier of [app/auth.py], pydantic's validators for the
    field types [str] and [bool], and the column constraints (NOT NULL,
    lengths, checks) that [app/models.py] declares on the two tables. *)

Class Collaborators := {
  get_password_hash : string → string;
  decode_access_token : string → option string;
  validate_str : jval → option string;
  validate_bool : jval → option bool;
  user_columns_ok : User.t → bool;
  note_columns_ok : Note.t → bool
}.

Section Service.
Context `{Collaborators}.

(** Modelled from the spec: the table constraints of [app/models.py], which
    is not among the sources: [email] and [username] are each unique and
    [owner_id] is a foreign key to [users.id]; the column constraints are
    those of the collaborators. *)
Definition integrity (d : Db) : Prop :=
  NoDup (User.email <$> users d) ∧
  NoDup (User.username <$> users d) ∧
  Forall (λ n, Note.owner_id n ∈ User.id <$> users d) (notes d) ∧
  Forall (λ u, user_columns_ok u = true) (users d) ∧
  Forall (λ n, note_columns_ok n = true) (notes d).

#[local] Instance integrity_dec d : Decision (integrity d).
Proof. unfold integrity. apply _. Defined.

(** [db.commit()]: the unit of work is flushed; the store takes it whole or
    raises [IntegrityError] and takes nothing. *)
Definition commit : M unit :=
  λ s, if decide (integrity (work s))
       then (Return (), {| store := work s; work := work s |})
       else (Raise IntegrityError, s).

(** [db.add(db_user)]: the row is inserted under the next key of the
    sequence; the key stands for the object from then on. *)
Definition add_user (new : Z → User.t) : M Z :=
  λ s, let w := work s in
       let pk := users_id_seq w in
       (Return pk,
        {| store := store s;
           work := {| users := users w ++ [new pk]; notes := notes w;
                      users_id_seq := pk + 1;
                      notes_id_seq := notes_id_seq w |} |}).

(** [db.add(db_note)] *)
Definition add_note (new : Z → Note.t) : M Z :=
  λ s, let w := work s in
       let pk := notes_id_seq w in
       (Return pk,
        {| store := store s;
           work := {| users := users w; notes := notes w ++ [new pk];
                      users_id_seq := users_id_seq w;
                      notes_id_seq := pk + 1 |} |}).

(** [db.refresh(obj)]: the row of that key, read back. *)
Definition refresh_user (pk : Z) : M User.t :=
  λ s, match head (filter (λ u, User.id u = pk) (users (work s))) with
       | Some u => (Return u, s)
       | None => (Raise InvalidRequestError, s)
       end.

Definition refresh_note (pk : Z) : M Note.t :=
  λ s, match head (filter (λ n, Note.id n = pk) (notes (work s))) with
       | Some n => (Return n, s)
       | None => (Raise InvalidRequestError, s)
       end.

(** [setattr(db_note, field, value)] on the object of key [pk]. *)
Definition setattr_note (pk : Z) (a : NoteAttr) : M unit :=
  modify_work (λ w,
    with_notes w ((λ n, if decide (Note.id n = pk) then setattr n a else n)
                    <$> notes w)).

(** [db.delete(db_note)] *)
Definition delete_row (pk : Z) : M unit :=
  modify_work (λ w, with_notes w (filter (λ n, Note.id n ≠ pk) (notes w))).

(** [for x in xs: body(x)] *)
Fixpoint for_each {A} (xs : list A) (body : A → M unit) : M unit :=
  match xs with
  | [] => ret ()
  | x :: xs' => body x;; for_each xs' body
  end.

(** ** [app/crud.py] *)

Definition get_user_by_email (db : Db) (email : string) : option User.t :=
  head (filter (λ u, User.email u = email) (users db)).

Definition get_user_by_username (db : Db) (username : string)
  : option User.t :=
  head (filter (λ u, User.username u = username) (users db)).

(** Modelled from the spec: the column default of [is_active] in
    [app/models.py] (registration persists an active user). *)
Definition User_new (email username hashed_password : string) (pk : Z)
  : User.t :=
  User.mk pk email username hashed_password true.

Definition create_user (user : UserCreate) : M User.t :=
  by_email ← query (λ db, get_user_by_email db (uc_email user));
  if by_email is Some _ then
    raise (HTTPException HTTP_400_BAD_REQUEST "Email already registered")
  else
  by_name ← query (λ db, get_user_by_username db (uc_username user));
  if by_name is Some _ then
    raise (HTTPException HTTP_400_BAD_REQUEST "Username already taken")
  else
  let hashed_password := get_password_hash (uc_password user) in
  let db_user := User_new (uc_email user) (uc_username user) hashed_password in
  try_except_IntegrityError
    (pk ← add_user db_user;
     commit;;
     refresh_user pk)
    (rollback;;
     raise (HTTPException HTTP_400_BAD_REQUEST
              "User creation failed due to constraint violation")).

Definition get_note (db : Db) (note_id user_id : Z) : option Note.t :=
  head (filter (λ n, Note.id n = note_id ∧ Note.owner_id n = user_id)
               (notes db)).

Definition get_public_note (db : Db) (note_id : Z) : option Note.t :=
  head (filter (λ n, Note.id n = note_id ∧ Note.is_public n = Some true)
               (notes db)).

Definition get_user_notes (db : Db) (user_id skip limit : Z) : list Note.t :=
  take (Z.to_nat limit)
    (drop (Z.to_nat skip) (filter (λ n, Note.owner_id n = user_id) (notes db))).

Definition get_public_notes (db : Db) (skip limit : Z) : list Note.t :=
  take (Z.to_nat limit)
    (drop (Z.to_nat skip)
       (filter (λ n, Note.is_public n = Some true) (notes db))).

Definition create_note (note : NoteCreate) (user_id : Z) : M Note.t :=
  let db_note := Note_new note user_id in
  try_except_IntegrityError
    (pk ← add_note db_note;
     commit;;
     refresh_note pk)
    (rollback;;
     raise (HTTPException HTTP_400_BAD_REQUEST "Note creation failed")).

Definition update_note (note_id : Z) (note_update : NoteUpdate) (user_id : Z)
  : M Note.t :=
  db_note ← query (λ db, get_note db note_id user_id);
  match db_note with
  | None => raise (HTTPException HTTP_404_NOT_FOUND "Note not found")
  | Some n =>
      let update_data := NoteUpdate_dict_exclude_unset note_update in
      try_except_IntegrityError
        (for_each update_data (setattr_note (Note.id n));;
         commit;;
         refresh_note (Note.id n))
        (rollback;;
         raise (HTTPException HTTP_400_BAD_REQUEST "Note update failed"))
  end.

Definition delete_note (note_id user_id : Z) : M bool :=
  db_note ← query (λ db, get_note db note_id user_id);
  match db_note with
  | None => raise (HTTPException HTTP_404_NOT_FOUND "Note not found")
  | Some n =>
      try_except_IntegrityError
        (delete_row (Note.id n);;
         commit;;
         ret true)
        (rollback;;
         raise (HTTPException HTTP_400_BAD_REQUEST "Note deletion failed"))
  end.

(** ** [app/routers/notes.py] *)

(** A query parameter declared [Query(default, ge=.., le=..)]. *)
Definition Query (default : Z) (ge : Z) (le : option Z) (given : option Z)
  : M Z :=
  match given with
  | None => ret default
  | Some v =>
      if bool_decide (ge ≤ v) && from_option (λ hi, bool_decide (v ≤ hi)) true le
      then ret v
      else raise RequestValidationError
  end.

Definition create_user_note (note : NoteCreate) (current_user : User.t)
  : M Note.t :=
  create_note note (User.id current_user).

Definition read_user_notes (skip limit : option Z) (current_user : User.t)
  : M (list Note.t) :=
  skip ← Query 0 0 None skip;
  limit ← Query 100 1 (Some 1000) limit;
  query (λ db, get_user_notes db (User.id current_user) skip limit).

Definition read_public_notes (skip limit : option Z) : M (list Note.t) :=
  skip ← Query 0 0 None skip;
  limit ← Query 100 1 (Some 1000) limit;
  query (λ db, get_public_notes db skip limit).

Definition read_note (note_id : Z) (current_user : User.t) : M Note.t :=
  (* First try to get user's own note *)
  note ← query (λ db, get_note db note_id (User.id current_user));
  if note is Some n then ret n else
  (* If not found, try to get public note *)
  note ← query (λ db, get_public_note db note_id);
  if note is Some n then ret n else
  raise (HTTPException HTTP_404_NOT_FOUND "Note not found").

Definition update_user_note (note_id : Z) (note_update : NoteUpdate)
    (current_user : User.t) : M Note.t :=
  update_note note_id note_update (User.id current_user).

Definition delete_user_note (note_id : Z) (current_user : User.t)
  : M Message :=
  delete_note note_id (User.id current_user);;
  ret "Note deleted successfully".

(** ** The routes: body validation and dependencies before the handler *)

(** Modelled from the spec: [get_current_active_user] of [app/auth.py],
    which is not among the sources: the identity is extracted from the
    bearer token, and a missing, invalid or expired token, or a subject that
    is no user, fails with Unauthenticated. *)
Definition get_current_active_user (bearer : option string) : M User.t :=
  match bearer with
  | None => raise (HTTPException HTTP_401_UNAUTHORIZED "Not authenticated")
  | Some token =>
      match decode_access_token token with
      | None =>
          raise (HTTPException HTTP_401_UNAUTHORIZED
                   "Could not validate credentials")
      | Some username =>
          user ← query (λ db, get_user_by_username db username);
          if user is Some u then ret u else
          raise (HTTPException HTTP_401_UNAUTHORIZED
                   "Could not validate credentials")
      end
  end.

(** Validation of a JSON object against [NoteCreate]: the declared fields
    are read, [is_public] has a default, other keys are ignored. *)
Definition NoteCreate_validate (body : gmap string jval) : option NoteCreate :=
  match body !! "title" ≫= validate_str,
        body !! "content" ≫= validate_str,
        from_option validate_bool (Some false) (body !! "is_public") with
  | Some t, Some c, Some p =>
      Some {| nc_title := t; nc_content := c; nc_is_public := p |}
  | _, _, _ => None
  end.

(** A field declared [Optional[T] = None]. *)
Definition validate_optional {A} (validate : jval → option A)
    (given : option jval) : option (Field (option A)) :=
  match given with
  | None => Some unset
  | Some JNull => Some (supplied None)
  | Some v => (λ a, supplied (Some a)) <$> validate v
  end.

Definition NoteUpdate_validate (body : gmap string jval) : option NoteUpdate :=
  match validate_optional validate_str (body !! "title"),
        validate_optional validate_str (body !! "content"),
        validate_optional validate_bool (body !! "is_public") with
  | Some t, Some c, Some p =>
      Some {| nu_title := t; nu_content := c; nu_is_public := p |}
  | _, _, _ => None
  end.

Definition Body {A} (validate : gmap string jval → option A)
    (body : gmap string jval) : M A :=
  if validate body is Some a then ret a else raise RequestValidationError.

(** POST /notes and PUT /notes/{id} for a resolved [current_user]: the
    JSON body is validated against the schema of the handler's parameter. *)
Definition POST_notes (body : gmap string jval) (current_user : User.t)
  : M Note.t :=
  note ← Body NoteCreate_validate body;
  create_user_note note current_user.

Definition PUT_note (note_id : Z) (body : gmap string jval)
    (current_user : User.t) : M Note.t :=
  note_update ← Body NoteUpdate_validate body;
  update_user_note note_id note_update current_user.

(** A handler that declares [Depends(get_current_active_user)], called
    with the credentials of a request. *)
Definition authenticated {A} (bearer : option string)
    (handler : User.t → M A) : M A :=
  current_user ← get_current_active_user bearer;
  handler current_user.

(** GET /notes/{id} *)
Definition GET_note (bearer : option string) (note_id : Z) : M Note.t :=
  authenticated bearer (read_note note_id).

(** ** Histories of the service

    The requests that write the store, and the states they lead to from the
    empty store.  Beside the store a history keeps, for every note id, the
    requester who created it. *)

Inductive call :=
| call_register (user : UserCreate)
| call_POST_notes (body : gmap string jval) (current_user : User.t)
| call_PUT_note (note_id : Z) (body : gmap string jval)
    (current_user : User.t)
| call_DELETE_note (note_id : Z) (current_user : User.t).

Record World := {
  db : Db;
  creator : gmap Z Z
}.

Definition exec (c : call) (w : World) : World :=
  match c with
  | call_register user =>
      {| db := (run (create_user user) (db w)).2; creator := creator w |}
  | call_POST_notes body current_user =>
      match run (POST_notes body current_user) (db w) with
      | (Return n, d') =>
          {| db := d';
             creator := <[Note.id n := User.id current_user]> (creator w) |}
      | (Raise _, d') => {| db := d'; creator := creator w |}
      end
  | call_PUT_note note_id body current_user =>
      {| db := (run (PUT_note note_id body current_user) (db w)).2;
         creator := creator w |}
  | call_DELETE_note note_id current_user =>
      {| db := (run (delete_user_note note_id current_user) (db w)).2;
         creator := creator w |}
  end.

Inductive reachable : World → Prop :=
| reachable_init : reachable {| db := empty_db; creator := ∅ |}
| reachable_exec c w : reachable w → reachable (exec c w).

(** The store's own invariants: primary keys come from the sequences, and
    every committed state satisfied the constraints. *)
Definition consistent (d : Db) : Prop :=
  NoDup (Note.id <$> notes d) ∧
  Forall (λ n, Note.id n < notes_id_seq d) (notes d) ∧
  NoDup (User.id <$> users d) ∧
  Forall (λ u, User.id u < users_id_seq d) (users d) ∧
  integrity d.

(** A row of the new store either continues a row of the old one, with the
    same id and owner, or is the row a request has just created. *)
Definition continues (d : Db) (new_owner : option Z) (d' : Db) : Prop :=
  ∀ n', n' ∈ notes d' →
    (∃ n, n ∈ notes d ∧ Note.id n' = Note.id n ∧
          Note.owner_id n' = Note.owner_id n) ∨
    (Note.id n' = notes_id_seq d ∧ new_owner = Some (Note.owner_id n')).

(** Every note of the store has its creator on record as its owner. *)
Definition owners_recorded (w : World) : Prop :=
  ∀ n, n ∈ notes (db w) → creator w !! Note.id n = Some (Note.owner_id n).

(** ** The units of work the write operations hand to [db.commit()] *)

(** What a partial update makes of a row. *)
Definition patch (u : NoteUpdate) (n : Note.t) : Note.t :=
  foldl setattr n (NoteUpdate_dict_exclude_unset u).

Definition on_row (pk : Z) (f : Note.t → Note.t) (n : Note.t) : Note.t :=
  if decide (Note.id n = pk) then f n else n.

Definition pending_update (d : Db) (pk : Z) (upd : NoteUpdate) : Db :=
  with_notes d (on_row pk (patch upd) <$> notes d).

Definition pending_delete (d : Db) (pk : Z) : Db :=
  with_notes d (filter (λ n, Note.id n ≠ pk) (notes d)).

Definition pending_note (d : Db) (new : Z → Note.t) : Db :=
  {| users := users d; notes := notes d ++ [new (notes_id_seq d)];
     users_id_seq := users_id_seq d; notes_id_seq := notes_id_seq d + 1 |}.

Definition pending_user (d : Db) (new : Z → User.t) : Db :=
  {| users := users d ++ [new (users_id_seq d)]; notes := notes d;
     users_id_seq := users_id_seq d + 1; notes_id_seq := notes_id_seq d |}.

(** The value a field has after a partial update. *)
Definition field_or {A} (f : Field A) (old : A) : A :=
  match f with
  | unset => old
  | supplied v => v
  end.

End Service.

(** ** A concrete choice of collaborators, for running the model

    Tokens are the user names themselves, validators accept the JSON value
    of the field's own type, and the notes table declares [title] and
    [content] NOT NULL. *)

Definition sample_collaborators : Collaborators := {|
  get_password_hash := λ p, String.append "hashed:" p;
  decode_access_token := λ t, Some t;
  validate_str := λ v, if v is JStr s then Some s else None;
  validate_bool := λ v, if v is JBool b then Some b else None;
  user_columns_ok := λ _, true;
  note_columns_ok := λ n,
    match Note.title n, Note.content n with
    | Some _, Some _ => true
    | _, _ => false
    end
|}.

Definition alice : User.t := User.mk 1 "a@x.com" "alice" "hashed:pw123" true.
Definition bob : User.t := User.mk 2 "b@x.com" "bob" "hashed:pw456" true.

Definition private_note : Note.t :=
  Note.mk 1 (Some "t") (Some "c") (Some false) 1.
Definition public_note : Note.t :=
  Note.mk 2 (Some "hello") (Some "world") (Some true) 1.

Definition sample_db : Db :=
  {| users := [alice; bob]; notes := [private_note; public_note];
     users_id_seq := 3; notes_id_seq := 3 |}.

(** A store in which alice owns 150 notes and bob one. *)
Definition numbered_note (owner : Z) (i : Z) : Note.t :=
  Note.mk i (Some "t") (Some "c") (Some false) owner.

Definition big_db : Db :=
  {| users := [alice; bob];
     notes := (numbered_note 1 <$> seqZ 1 150) ++ [numbered_note 2 151];
     users_id_seq := 3; notes_id_seq := 152 |}.

(** A short history: alice registers and posts a note whose body also names
    bob as owner. *)
Definition alice_registration : UserCreate :=
  {| uc_email := "a@x.com"; uc_username := "alice"; uc_password := "pw123" |}.

Definition sample_body : gmap string jval :=
  <["title" := JStr "t"]> (<["content" := JStr "c"]>
    (<["owner_id" := JNum 2]> ∅)).

Definition sample_world : World :=
  @exec sample_collaborators (call_POST_notes sample_body alice)
    (@exec sample_collaborators (call_register alice_registration)
       {| db := empty_db; creator := ∅ |}).

(** An update that sets the title to null, which the sample schema rejects,
    and one that sets only the title. *)
Definition null_title : NoteUpdate :=
  {| nu_title := supplied None; nu_content := unset; nu_is_public := unset |}.

Definition title_x : NoteUpdate :=
  {| nu_title := supplied (Some "x"); nu_content := unset;
     nu_is_public := unset |}.

(** ** Login ([authenticate_user] of [app/crud.py])

    [verify_password] belongs to [app/auth.py]; it is a parameter here. *)
Definition authenticate_user (verify_password : string → string → bool)
    (db : Db) (username password : string) : option User.t :=
  match get_user_by_username db username with
  | None => None
  | Some user =>
      if verify_password password (User.hashed_password user)
      then Some user
      else None
  end.

(** The verifier that goes with the sample hasher. *)
Definition sample_verify_password (plain hashed : string) : bool :=
  bool_decide (hashed = String.append "hashed:" plain).

(** A body without the optional [is_public]. *)
Definition plain_body : gmap string jval :=
  <["title" := JStr "t"]> (<["content" := JStr "c"]> ∅).

(** A registration that reuses alice's username under a new email, and an
    update that publishes a note. *)
Definition second_alice : UserCreate :=
  {| uc_email := "other@x.com"; uc_username := "alice";
     uc_password := "pw789" |}.

Definition make_public : NoteUpdate :=
  {| nu_title := unset; nu_content := unset;
     nu_is_public := supplied (Some true) |}.

Definition new_note : NoteCreate :=
  {| nc_title := "n"; nc_content := "b"; nc_is_public := false |}.

(** Decidable facts about the sample stores, by evaluation. *)
Ltac by_computation := apply (bool_decide_unpack _); vm_compute; exact I.

(** ** Lists as tables: queries by key *)

Section Queries.
Context {A : Type}.

Lemma head_filter_Some (P : A → Prop) `{∀ x, Decision (P x)} l x :
  head (filter P l) = Some x → x ∈ l ∧ P x.
Proof.
  intros Hhd. apply head_Some_elem_of in Hhd.
  apply list_elem_of_filter in Hhd. tauto.
Qed.

Lemma head_filter_None (P : A → Prop) `{∀ x, Decision (P x)} l :
  head (filter P l) = None ↔ ∀ x, x ∈ l → ¬ P x.
Proof.
  rewrite head_None. split.
  - intros Hnil x Hx HP. eapply filter_nil_not_elem_of; eauto.
  - intros Hno. induction l as [|y l IH]; [done|].
    rewrite filter_cons_False; [|apply Hno; left].
    apply IH. intros x Hx. apply Hno. by right.
Qed.

End Queries.

Section Tables.
Context {A K : Type} `{EqDecision K} (key : A → K).

Lemma key_inj l x y :
  NoDup (key <$> l) → x ∈ l → y ∈ l → key x = key y → x = y.
Proof.
  induction l as [|z l IH]; intros Hnd Hx Hy Hk; [by inversion Hx|].
  rewrite fmap_cons in Hnd. apply NoDup_cons in Hnd as [Hz Hnd].
  apply elem_of_cons in Hx as [->|Hx], Hy as [->|Hy]; auto.
  - destruct Hz. rewrite Hk. by apply list_elem_of_fmap_2.
  - destruct Hz. rewrite <- Hk. by apply list_elem_of_fmap_2.
Qed.

(** A row selected by a condition that fixes its key is the first match. *)
Lemma head_filter_key (P : A → Prop) `{∀ x, Decision (P x)} l x :
  NoDup (key <$> l) → x ∈ l → P x → (∀ y, P y → key y = key x) →
  head (filter P l) = Some x.
Proof.
  intros Hnd Hx HP Hkey.
  destruct (head (filter P l)) as [y|] eqn:Hhd.
  - apply head_filter_Some in Hhd as [Hy HPy].
    f_equal. eapply key_inj; eauto.
  - exfalso. eapply head_filter_None in Hhd; eauto.
Qed.

Lemma filter_key_fresh (k : K) l :
  k ∉ key <$> l → filter (λ x, key x = k) l = [].
Proof.
  intros Hk. apply head_None, head_filter_None.
  intros x Hx <-. apply Hk. by apply list_elem_of_fmap_2.
Qed.

End Tables.

Section Properties.
Context `{Collaborators}.

(** ** The loop of [setattr] calls *)

Lemma setattr_id n a : Note.id (setattr n a) = Note.id n.
Proof. by destruct a. Qed.

Lemma setattr_owner_id n a : Note.owner_id (setattr n a) = Note.owner_id n.
Proof. by destruct a. Qed.

Lemma patch_id upd n : Note.id (patch upd n) = Note.id n.
Proof.
  unfold patch. generalize (NoteUpdate_dict_exclude_unset upd) as attrs.
  intros attrs. revert n. induction attrs as [|a attrs IH]; intros n; [done|].
  simpl. by rewrite IH, setattr_id.
Qed.

Lemma patch_owner_id upd n : Note.owner_id (patch upd n) = Note.owner_id n.
Proof.
  unfold patch. generalize (NoteUpdate_dict_exclude_unset upd) as attrs.
  intros attrs. revert n. induction attrs as [|a attrs IH]; intros n; [done|].
  simpl. by rewrite IH, setattr_owner_id.
Qed.

Lemma patch_fields upd n :
  Note.title (patch upd n) = field_or (nu_title upd) (Note.title n) ∧
  Note.content (patch upd n) = field_or (nu_content upd) (Note.content n) ∧
  Note.is_public (patch upd n) =
    field_or (nu_is_public upd) (Note.is_public n).
Proof. by destruct upd as [[|?] [|?] [|?]]. Qed.

Lemma on_row_id pk f n :
  (∀ m, Note.id (f m) = Note.id m) → Note.id (on_row pk f n) = Note.id n.
Proof. intros Hf. unfold on_row. by case_decide. Qed.

Lemma for_each_setattr_note pk attrs s :
  for_each attrs (setattr_note pk) s =
  (Return (),
   {| store := store s;
      work := with_notes (work s)
                (on_row pk (λ n, foldl setattr n attrs) <$> notes (work s)) |}).
Proof.
  revert s. induction attrs as [|a attrs IH]; intros [st w]; simpl.
  - unfold ret, with_notes. simpl. do 3 f_equal.
    destruct w as [us ns useq nseq]; simpl. f_equal.
    rewrite <- (list_fmap_id ns) at 1. apply list_fmap_ext.
    intros ? n _. unfold on_row. by case_decide.
  - unfold bind at 1. unfold setattr_note at 1, modify_work. simpl.
    rewrite IH. simpl. unfold with_notes; simpl.
    rewrite <- list_fmap_compose. do 3 f_equal. apply list_fmap_ext.
    intros ? n _. simpl. unfold on_row.
    destruct (decide (Note.id n = pk)) as [Heq|Hne].
    + rewrite decide_True; [done | by rewrite setattr_id].
    + by rewrite decide_False.
Qed.

(** ** What each write operation returns and leaves in the store *)

Lemma run_update_note d note_id upd user_id :
  run (update_note note_id upd user_id) d =
  match get_note d note_id user_id with
  | None => (Raise (HTTPException HTTP_404_NOT_FOUND "Note not found"), d)
  | Some n =>
      let w := pending_update d (Note.id n) upd in
      if decide (integrity w) then
        match head (filter (λ m, Note.id m = Note.id n) (notes w)) with
        | Some r => (Return r, w)
        | None => (Raise InvalidRequestError, w)
        end
      else (Raise (HTTPException HTTP_400_BAD_REQUEST "Note update failed"), d)
  end.
Proof.
  unfold run, update_note, bind at 1, query. simpl.
  destruct (get_note d note_id user_id) as [n|]; [|done].
  unfold try_except_IntegrityError, bind at 1.
  rewrite for_each_setattr_note. simpl.
  unfold bind at 1, commit. simpl. fold (patch upd).
  fold (pending_update d (Note.id n) upd).
  destruct (decide (integrity _)) as [Hok|Hbad]; simpl; [|done].
  unfold refresh_note. simpl.
  by destruct (head _).
Qed.

Lemma run_delete_note d note_id user_id :
  run (delete_note note_id user_id) d =
  match get_note d note_id user_id with
  | None => (Raise (HTTPException HTTP_404_NOT_FOUND "Note not found"), d)
  | Some n =>
      let w := pending_delete d (Note.id n) in
      if decide (integrity w) then (Return true, w)
      else (Raise (HTTPException HTTP_400_BAD_REQUEST "Note deletion failed"), d)
  end.
Proof.
  unfold run, delete_note, bind at 1, query. simpl.
  destruct (get_note d note_id user_id) as [n|]; [|done].
  unfold try_except_IntegrityError, bind at 1, delete_row, modify_work. simpl.
  unfold bind at 1, commit. simpl.
  fold (pending_delete d (Note.id n)).
  by destruct (decide (integrity _)).
Qed.

Lemma run_create_note d note user_id :
  run (create_note note user_id) d =
  let w := pending_note d (Note_new note user_id) in
  if decide (integrity w) then
    match head (filter (λ m, Note.id m = notes_id_seq d) (notes w)) with
    | Some r => (Return r, w)
    | None => (Raise InvalidRequestError, w)
    end
  else (Raise (HTTPException HTTP_400_BAD_REQUEST "Note creation failed"), d).
Proof.
  unfold run, create_note, try_except_IntegrityError, bind at 1, add_note.
  simpl. unfold bind at 1, commit. simpl.
  fold (pending_note d (Note_new note user_id)).
  destruct (decide (integrity _)) as [Hok|Hbad]; simpl; [|done].
  unfold refresh_note. simpl. by destruct (head _).
Qed.

Lemma run_create_user d user :
  run (create_user user) d =
  if get_user_by_email d (uc_email user) is Some _ then
    (Raise (HTTPException HTTP_400_BAD_REQUEST "Email already registered"), d)
  else if get_user_by_username d (uc_username user) is Some _ then
    (Raise (HTTPException HTTP_400_BAD_REQUEST "Username already taken"), d)
  else
    let w := pending_user d (User_new (uc_email user) (uc_username user)
                               (get_password_hash (uc_password user))) in
    if decide (integrity w) then
      match head (filter (λ u, User.id u = users_id_seq d) (users w)) with
      | Some r => (Return r, w)
      | None => (Raise InvalidRequestError, w)
      end
    else (Raise (HTTPException HTTP_400_BAD_REQUEST
                   "User creation failed due to constraint violation"), d).
Proof.
  unfold run, create_user, bind at 1, query. simpl.
  destruct (get_user_by_email _ _); [done|].
  unfold bind at 1. simpl.
  destruct (get_user_by_username _ _); [done|].
  unfold try_except_IntegrityError, bind at 1, add_user.
  simpl. unfold bind at 1, commit. simpl.
  match goal with |- context [decide (integrity ?w)] =>
    change w with (pending_user d (User_new (uc_email user) (uc_username user)
                               (get_password_hash (uc_password user)))) end.
  destruct (decide (integrity _)) as [Hok|Hbad]; simpl; [|done].
  unfold refresh_user. simpl. by destruct (head _).
Qed.

(** ** Queries on a consistent store *)

Lemma get_note_owner d n :
  consistent d → n ∈ notes d →
  get_note d (Note.id n) (Note.owner_id n) = Some n.
Proof.
  intros (Hnd & _) Hn. unfold get_note.
  apply (head_filter_key Note.id); auto. by intros y [-> _].
Qed.

Lemma get_note_not_owner d n user_id :
  consistent d → n ∈ notes d → user_id ≠ Note.owner_id n →
  get_note d (Note.id n) user_id = None.
Proof.
  intros (Hnd & _) Hn Hne. apply head_filter_None.
  intros m Hm [Hid Hown].
  apply Hne. rewrite <- Hown. f_equal. eapply (key_inj Note.id); eauto.
Qed.

Lemma get_note_absent d note_id user_id :
  note_id ∉ Note.id <$> notes d → get_note d note_id user_id = None.
Proof.
  intros Hno. apply head_filter_None. intros m Hm [Hid _].
  apply Hno. rewrite <- Hid. by apply list_elem_of_fmap_2.
Qed.

Lemma get_public_note_public d n :
  consistent d → n ∈ notes d → Note.is_public n = Some true →
  get_public_note d (Note.id n) = Some n.
Proof.
  intros (Hnd & _) Hn Hpub. unfold get_public_note.
  apply (head_filter_key Note.id); auto. by intros y [-> _].
Qed.

Lemma get_public_note_private d n :
  consistent d → n ∈ notes d → Note.is_public n ≠ Some true →
  get_public_note d (Note.id n) = None.
Proof.
  intros (Hnd & _) Hn Hpriv. apply head_filter_None.
  intros m Hm [Hid Hpub]. apply Hpriv. rewrite <- Hpub. f_equal.
  eapply (key_inj Note.id); eauto.
Qed.

Lemma get_public_note_absent d note_id :
  note_id ∉ Note.id <$> notes d → get_public_note d note_id = None.
Proof.
  intros Hno. apply head_filter_None. intros m Hm [Hid _].
  apply Hno. rewrite <- Hid. by apply list_elem_of_fmap_2.
Qed.

Lemma get_user_by_username_Some d name u :
  get_user_by_username d name = Some u →
  u ∈ users d ∧ User.username u = name.
Proof. intros Hq. by apply head_filter_Some in Hq. Qed.

(** ** The pending units of work *)

Lemma fmap_on_row_id pk f (l : list Note.t) :
  (∀ m, Note.id (f m) = Note.id m) →
  Note.id <$> (on_row pk f <$> l) = Note.id <$> l.
Proof.
  intros Hf. rewrite <- list_fmap_compose. apply list_fmap_ext.
  intros ? n _. simpl. by apply on_row_id.
Qed.

Lemma refresh_after_update d n upd :
  consistent d → n ∈ notes d →
  head (filter (λ m, Note.id m = Note.id n)
          (notes (pending_update d (Note.id n) upd))) = Some (patch upd n).
Proof.
  intros (Hnd & _) Hn. simpl.
  apply (head_filter_key Note.id).
  - by rewrite fmap_on_row_id by apply patch_id.
  - apply list_elem_of_fmap. exists n. split; [|done].
    unfold on_row. by rewrite decide_True.
  - apply patch_id.
  - intros y ->. by rewrite patch_id.
Qed.

Lemma consistent_pending_update d pk upd :
  consistent d → integrity (pending_update d pk upd) →
  consistent (pending_update d pk upd).
Proof.
  intros (Hnd & Hlt & Hund & Hult & _) Hok.
  split_and!; simpl; try done.
  - by rewrite fmap_on_row_id by apply patch_id.
  - apply Forall_fmap. eapply Forall_impl; [exact Hlt|].
    intros n Hn. simpl. by rewrite on_row_id by apply patch_id.
Qed.

Lemma integrity_pending_delete d pk :
  integrity d → integrity (pending_delete d pk).
Proof.
  intros (He & Hu & Hfk & Huc & Hnc). split_and!; simpl; try done.
  - apply Forall_forall. intros n Hn%list_elem_of_filter.
    rewrite Forall_forall in Hfk. apply Hfk. tauto.
  - apply Forall_forall. intros n Hn%list_elem_of_filter.
    rewrite Forall_forall in Hnc. apply Hnc. tauto.
Qed.

Lemma consistent_pending_delete d pk :
  consistent d → consistent (pending_delete d pk).
Proof.
  intros (Hnd & Hlt & Hund & Hult & Hok).
  split_and!; simpl; try done.
  - eapply sublist_NoDup; [exact Hnd|].
    apply fmap_sublist, sublist_filter.
  - apply Forall_forall. intros n Hn%list_elem_of_filter.
    rewrite Forall_forall in Hlt. apply Hlt. tauto.
  - by apply integrity_pending_delete.
Qed.

Lemma seq_fresh {A} (key : A → Z) (l : list A) (next : Z) :
  Forall (λ x, key x < next) l → next ∉ key <$> l.
Proof.
  intros Hlt (x & Hx & Hin)%list_elem_of_fmap.
  rewrite Forall_forall in Hlt. specialize (Hlt x Hin). simpl in Hlt. lia.
Qed.

Lemma refresh_after_add_note d new :
  consistent d → Note.id (new (notes_id_seq d)) = notes_id_seq d →
  head (filter (λ m, Note.id m = notes_id_seq d)
          (notes (pending_note d new))) = Some (new (notes_id_seq d)).
Proof.
  intros (_ & Hlt & _) Hid. simpl. rewrite filter_app.
  rewrite (filter_key_fresh Note.id) by by apply seq_fresh.
  simpl. by rewrite filter_cons_True.
Qed.

Lemma refresh_after_add_user d new :
  consistent d → User.id (new (users_id_seq d)) = users_id_seq d →
  head (filter (λ u, User.id u = users_id_seq d)
          (users (pending_user d new))) = Some (new (users_id_seq d)).
Proof.
  intros (_ & _ & _ & Hlt & _) Hid. simpl. rewrite filter_app.
  rewrite (filter_key_fresh User.id) by by apply seq_fresh.
  simpl. by rewrite filter_cons_True.
Qed.

Lemma consistent_pending_note d new :
  consistent d → Note.id (new (notes_id_seq d)) = notes_id_seq d →
  integrity (pending_note d new) → consistent (pending_note d new).
Proof.
  intros (Hnd & Hlt & Hund & Hult & _) Hid Hok.
  split_and!; simpl; try done.
  - rewrite fmap_app. apply NoDup_app. split_and!; [done| |].
    + intros k Hk Hk'%list_elem_of_singleton. simpl in Hk'.
      rewrite Hid in Hk'. subst k. exact (seq_fresh Note.id _ _ Hlt Hk).
    + apply NoDup_singleton.
  - apply Forall_app. split.
    + eapply Forall_impl; [exact Hlt|]. simpl. intros; lia.
    + constructor; [|constructor]. rewrite Hid. lia.
Qed.

Lemma consistent_pending_user d new :
  consistent d → User.id (new (users_id_seq d)) = users_id_seq d →
  integrity (pending_user d new) → consistent (pending_user d new).
Proof.
  intros (Hnd & Hlt & Hund & Hult & _) Hid Hok.
  split_and!; simpl; try done.
  - rewrite fmap_app. apply NoDup_app. split_and!; [done| |].
    + intros k Hk Hk'%list_elem_of_singleton. simpl in Hk'.
      rewrite Hid in Hk'. subst k. exact (seq_fresh User.id _ _ Hult Hk).
    + apply NoDup_singleton.
  - apply Forall_app. split.
    + eapply Forall_impl; [exact Hult|]. simpl. intros; lia.
    + constructor; [|constructor]. rewrite Hid. lia.
Qed.

Lemma run_then_ret {A B} (m : M A) (b : B) d :
  run (bind m (λ _, ret b)) d =
  match run m d with
  | (Return _, d') => (Return b, d')
  | (Raise e, d') => (Raise e, d')
  end.
Proof. unfold run, bind, ret. by destruct (m _) as [[?|?] ?]. Qed.

(** ** Reading a note *)

Lemma run_read_note d note_id current_user :
  run (read_note note_id current_user) d =
  match get_note d note_id (User.id current_user) with
  | Some n => (Return n, d)
  | None =>
      match get_public_note d note_id with
      | Some n => (Return n, d)
      | None =>
          (Raise (HTTPException HTTP_404_NOT_FOUND "Note not found"), d)
      end
  end.
Proof.
  unfold run, read_note, bind at 1, query. simpl.
  destruct (get_note _ _ _); [done|].
  unfold bind, query. simpl. by destruct (get_public_note _ _).
Qed.

(** The authentication dependency only reads, and the user it yields is a
    row of the users table. *)
Lemma get_current_active_user_reads bearer s :
  ∃ r, get_current_active_user bearer s = (r, s) ∧
       ∀ u, r = Return u → u ∈ users (work s).
Proof.
  unfold get_current_active_user.
  destruct bearer as [token|]; [|by eexists].
  destruct (decode_access_token token) as [username|]; [|by eexists].
  unfold bind, query. simpl.
  destruct (get_user_by_username _ _) as [u|] eqn:Hu; eexists; split;
    try done.
  intros u' [= <-]. by apply get_user_by_username_Some in Hu as [? _].
Qed.

Lemma run_authenticated {A} bearer (k : User.t → M A) d u :
  run (get_current_active_user bearer) d = (Return u, d) →
  run (authenticated bearer k) d = run (k u) d.
Proof.
  unfold run, authenticated, bind. intros Hrun.
  destruct (get_current_active_user_reads bearer (open_session d))
    as (r & Hr & _).
  rewrite Hr in *. simpl in Hrun. by injection Hrun as ->.
Qed.

(** C1. For distinct users u1 and u2 and a private note n owned by u1,
    reading n as u2 and reading an id that no note has as u2 give the same
    outcome, the 404 "Note not found", and leave the store as it was. *)
Theorem private_note_indistinguishable d u1 u2 n missing_id :
  consistent d →
  u1 ∈ users d → u2 ∈ users d → u1 ≠ u2 →
  n ∈ notes d → Note.owner_id n = User.id u1 →
  Note.is_public n ≠ Some true →
  missing_id ∉ Note.id <$> notes d →
  run (read_note (Note.id n) u2) d =
    (Raise (HTTPException HTTP_404_NOT_FOUND "Note not found"), d) ∧
  run (read_note missing_id u2) d = run (read_note (Note.id n) u2) d.
Proof.
  intros Hd Hu1 Hu2 Hne Hn Hown Hpriv Hmiss.
  assert (User.id u2 ≠ Note.owner_id n) as Hne'.
  { rewrite Hown. intros Heq. apply Hne. symmetry.
    eapply (key_inj User.id); eauto. apply Hd. }
  rewrite !run_read_note.
  rewrite get_note_not_owner, get_public_note_private by done.
  by rewrite get_note_absent, get_public_note_absent.
Qed.

(** C2 (amended). For a public note n and every authenticated requester,
    owner or not, GET /notes/{id} returns n as it is stored and leaves the
    store as it was; so does the handler for any current user. *)
Theorem public_note_readable d n :
  consistent d → n ∈ notes d → Note.is_public n = Some true →
  (∀ current_user, run (read_note (Note.id n) current_user) d = (Return n, d)) ∧
  (∀ bearer u2,
     run (get_current_active_user bearer) d = (Return u2, d) →
     run (GET_note bearer (Note.id n)) d = (Return n, d)).
Proof.
  intros Hd Hn Hpub.
  assert (∀ cu, run (read_note (Note.id n) cu) d = (Return n, d)) as Hread.
  { intros cu. rewrite run_read_note.
    destruct (decide (User.id cu = Note.owner_id n)) as [->|Hne].
    - by rewrite get_note_owner.
    - by rewrite get_note_not_owner, get_public_note_public. }
  split; [done|]. intros bearer u2 Hauth.
  unfold GET_note. by rewrite (run_authenticated _ _ _ _ Hauth).
Qed.

(** C3. A requester who does not own note n can neither update nor delete
    it, public or private: both operations, and the handlers that call them,
    answer 404 "Note not found" and the store is as it was. *)
Theorem write_requires_ownership d n current_user note_update :
  consistent d → n ∈ notes d → User.id current_user ≠ Note.owner_id n →
  get_note d (Note.id n) (User.id current_user) = None ∧
  run (update_note (Note.id n) note_update (User.id current_user)) d =
    (Raise (HTTPException HTTP_404_NOT_FOUND "Note not found"), d) ∧
  run (delete_note (Note.id n) (User.id current_user)) d =
    (Raise (HTTPException HTTP_404_NOT_FOUND "Note not found"), d) ∧
  run (update_user_note (Note.id n) note_update current_user) d =
    (Raise (HTTPException HTTP_404_NOT_FOUND "Note not found"), d) ∧
  run (delete_user_note (Note.id n) current_user) d =
    (Raise (HTTPException HTTP_404_NOT_FOUND "Note not found"), d).
Proof.
  intros Hd Hn Hne.
  pose proof (get_note_not_owner d n _ Hd Hn Hne) as Hget.
  unfold update_user_note, delete_user_note.
  rewrite run_then_ret, run_update_note, run_delete_note.
  by rewrite Hget.
Qed.

(** ** Routes: what body validation leaves to the handler *)

Lemma run_Body {A B} (validate : gmap string jval → option A) body
    (k : A → M B) d :
  run (a ← Body validate body; k a) d =
  match validate body with
  | Some a => run (k a) d
  | None => (Raise RequestValidationError, d)
  end.
Proof. unfold run, bind, Body. by destruct (validate body). Qed.

(** ** Creating a note *)

Lemma NoteCreate_validate_extra body key v :
  key ∉ ["title"; "content"; "is_public"] →
  NoteCreate_validate (<[key := v]> body) = NoteCreate_validate body.
Proof.
  intros Hkey. unfold NoteCreate_validate.
  rewrite !lookup_insert_ne; [done|..]; intros ->; apply Hkey; set_solver.
Qed.

Lemma NoteUpdate_validate_extra body key v :
  key ∉ ["title"; "content"; "is_public"] →
  NoteUpdate_validate (<[key := v]> body) = NoteUpdate_validate body.
Proof.
  intros Hkey. unfold NoteUpdate_validate.
  rewrite !lookup_insert_ne; [done|..]; intros ->; apply Hkey; set_solver.
Qed.

Lemma integrity_pending_note d new :
  integrity d →
  integrity (pending_note d new) ↔
  Note.owner_id (new (notes_id_seq d)) ∈ User.id <$> users d ∧
  note_columns_ok (new (notes_id_seq d)) = true.
Proof.
  intros (He & Hu & Hfk & Huc & Hnc). unfold integrity. simpl.
  rewrite !Forall_app, !Forall_singleton. tauto.
Qed.

Lemma run_create_note_consistent d note user_id :
  consistent d →
  run (create_note note user_id) d =
  if decide (integrity (pending_note d (Note_new note user_id)))
  then (Return (Note_new note user_id (notes_id_seq d)),
        pending_note d (Note_new note user_id))
  else (Raise (HTTPException HTTP_400_BAD_REQUEST "Note creation failed"), d).
Proof.
  intros Hd. rewrite run_create_note. cbv zeta.
  case_decide; [|done]. by rewrite refresh_after_add_note.
Qed.

(** C4. Whatever the body of POST /notes, the request either persists
    exactly one new note, whose owner is the requester, or fails and persists
    nothing; a key of the body that NoteCreate does not declare, such as an
    owner, changes nothing of the outcome; and the request of a user of the
    store succeeds whenever the body validates and the new row meets the
    column constraints. *)
Theorem create_owner_is_caller d body current_user :
  consistent d →
  (∀ key v, key ∉ ["title"; "content"; "is_public"] →
     run (POST_notes (<[key := v]> body) current_user) d =
     run (POST_notes body current_user) d) ∧
  (∀ r d', run (POST_notes body current_user) d = (r, d') →
     (∃ n, r = Return n ∧ Note.owner_id n = User.id current_user ∧
           notes d' = (notes d ++ [n])%list ∧ users d' = users d) ∨
     (∃ e, r = Raise e ∧ d' = d)) ∧
  (∀ note, current_user ∈ users d →
     NoteCreate_validate body = Some note →
     note_columns_ok
       (Note_new note (User.id current_user) (notes_id_seq d)) = true →
     ∃ d', run (POST_notes body current_user) d =
             (Return (Note_new note (User.id current_user) (notes_id_seq d)),
              d')).
Proof.
  intros Hd. unfold POST_notes, create_user_note. split_and!.
  - intros key v Hkey. by rewrite !run_Body, NoteCreate_validate_extra.
  - intros r d'. rewrite run_Body.
    destruct (NoteCreate_validate body) as [note|];
      [|intros [= <- <-]; right; by eexists].
    rewrite run_create_note_consistent by done.
    case_decide; intros [= <- <-]; [left|right; by eexists].
    by eexists.
  - intros note Huser Hbody Hcols. rewrite run_Body, Hbody.
    rewrite run_create_note_consistent by done.
    rewrite decide_True; [by eexists|].
    apply integrity_pending_note; [apply Hd|]. split; [|done].
    simpl. by apply list_elem_of_fmap_2.
Qed.

(** ** Updating a note *)

Lemma run_update_note_owner d n upd :
  consistent d → n ∈ notes d →
  run (update_note (Note.id n) upd (Note.owner_id n)) d =
  if decide (integrity (pending_update d (Note.id n) upd))
  then (Return (patch upd n), pending_update d (Note.id n) upd)
  else (Raise (HTTPException HTTP_400_BAD_REQUEST "Note update failed"), d).
Proof.
  intros Hd Hn. rewrite run_update_note, get_note_owner by done. cbv zeta.
  case_decide; [|done]. by rewrite refresh_after_update.
Qed.

Lemma pending_update_notes d n upd :
  consistent d → n ∈ notes d →
  notes (pending_update d (Note.id n) upd) =
  (λ m, if decide (m = n) then patch upd n else m) <$> notes d.
Proof.
  intros (Hnd & _) Hn. simpl. apply list_fmap_ext. intros i m Hm.
  apply list_elem_of_lookup_2 in Hm. unfold on_row.
  destruct (decide (Note.id m = Note.id n)) as [Heq|Hne].
  - assert (m = n) as -> by (eapply (key_inj Note.id); eauto).
    by rewrite decide_True.
  - rewrite decide_False; [done|]. by intros ->.
Qed.

(** C5. When the owner of note n updates it with a partial update, the
    note returned and stored has the supplied value in every supplied field
    and the prior value in every field not supplied; its id and owner, every
    other note and the users are as before.  The update succeeds whenever
    the store accepts the patched row. *)
Theorem partial_update_frame d n upd :
  consistent d → n ∈ notes d →
  (integrity (pending_update d (Note.id n) upd) →
     ∃ r d',
       run (update_note (Note.id n) upd (Note.owner_id n)) d = (Return r, d')) ∧
  (∀ r d',
     run (update_note (Note.id n) upd (Note.owner_id n)) d = (Return r, d') →
     Note.title r = field_or (nu_title upd) (Note.title n) ∧
     Note.content r = field_or (nu_content upd) (Note.content n) ∧
     Note.is_public r = field_or (nu_is_public upd) (Note.is_public n) ∧
     Note.id r = Note.id n ∧
     Note.owner_id r = Note.owner_id n ∧
     notes d' = (λ m, if decide (m = n) then r else m) <$> notes d ∧
     users d' = users d).
Proof.
  intros Hd Hn. rewrite run_update_note_owner by done. split.
  - intros Hok. rewrite decide_True by done. by do 2 eexists.
  - intros r d' Hrun. case_decide; [|done].
    injection Hrun as <- <-.
    destruct (patch_fields upd n) as (Ht & Hc & Hp).
    split_and!; try done.
    + apply patch_id.
    + apply patch_owner_id.
    + by apply pending_update_notes.
Qed.

(** C7. When the store rejects the write of an update, that is when the
    commit of the fields set on the note raises IntegrityError, update_note
    fails with the 400 "Note update failed" and the unit of work is rolled
    back: the session is again the one the request opened, and the store is
    exactly what it was, so no field of the note has changed. *)
Theorem update_conflict_rolls_back d note_id upd user_id n s :
  get_note d note_id user_id = Some n →
  (for_each (NoteUpdate_dict_exclude_unset upd) (setattr_note (Note.id n));;
   commit) (open_session d) = (Raise IntegrityError, s) →
  update_note note_id upd user_id (open_session d) =
    (Raise (HTTPException HTTP_400_BAD_REQUEST "Note update failed"),
     open_session d) ∧
  run (update_note note_id upd user_id) d =
    (Raise (HTTPException HTTP_400_BAD_REQUEST "Note update failed"), d).
Proof.
  intros Hget Hcommit.
  assert (update_note note_id upd user_id (open_session d) =
          (Raise (HTTPException HTTP_400_BAD_REQUEST "Note update failed"),
           open_session d)) as Hsession.
  { unfold update_note, bind at 1, query. simpl. rewrite Hget.
    unfold try_except_IntegrityError, bind at 1.
    unfold bind in Hcommit. rewrite for_each_setattr_note in *.
    unfold bind at 1. unfold commit in *. simpl in *.
    by destruct (decide (integrity _)). }
  split; [done|]. unfold run. by rewrite Hsession.
Qed.

(** ** Deleting a note *)

(** C6. When the owner deletes note n twice in a row, the first call
    succeeds and removes the note, and the second call answers 404
    "Note not found" and changes nothing. *)
Theorem delete_twice d n current_user :
  consistent d → n ∈ notes d → Note.owner_id n = User.id current_user →
  ∃ d1,
    run (delete_note (Note.id n) (User.id current_user)) d = (Return true, d1) ∧
    run (delete_user_note (Note.id n) current_user) d =
      (Return "Note deleted successfully", d1) ∧
    notes d1 = filter (λ m, Note.id m ≠ Note.id n) (notes d) ∧
    (n ∉ notes d1) ∧
    run (delete_user_note (Note.id n) current_user) d1 =
      (Raise (HTTPException HTTP_404_NOT_FOUND "Note not found"), d1).
Proof.
  intros Hd Hn Hown. exists (pending_delete d (Note.id n)).
  assert (run (delete_note (Note.id n) (User.id current_user)) d =
          (Return true, pending_delete d (Note.id n))) as Hfirst.
  { rewrite run_delete_note, <- Hown, get_note_owner by done. simpl.
    rewrite decide_True; [done|]. apply integrity_pending_delete, Hd. }
  assert (n ∉ notes (pending_delete d (Note.id n))) as Hgone.
  { simpl. intros Hin%list_elem_of_filter. tauto. }
  split_and!; try done.
  - unfold delete_user_note. by rewrite run_then_ret, Hfirst.
  - unfold delete_user_note. rewrite run_then_ret, run_delete_note.
    rewrite get_note_absent; [done|].
    simpl. intros (m & Hid & Hm%list_elem_of_filter)%list_elem_of_fmap.
    destruct Hm as [Hne _]. by apply Hne.
Qed.

(** ** Registration *)

Lemma get_user_by_email_None d email :
  get_user_by_email d email = None → email ∉ User.email <$> users d.
Proof.
  intros Hq (u & -> & Hu)%list_elem_of_fmap.
  unfold get_user_by_email in Hq. rewrite head_filter_None in Hq.
  by apply (Hq u).
Qed.

Lemma get_user_by_username_None d name :
  get_user_by_username d name = None → name ∉ User.username <$> users d.
Proof.
  intros Hq (u & -> & Hu)%list_elem_of_fmap.
  unfold get_user_by_username in Hq. rewrite head_filter_None in Hq.
  by apply (Hq u).
Qed.

Lemma get_user_by_email_present d u :
  u ∈ users d → is_Some (get_user_by_email d (User.email u)).
Proof.
  intros Hu. destruct (get_user_by_email d (User.email u)) eqn:Hq; [done|].
  apply get_user_by_email_None in Hq. destruct Hq.
  by apply list_elem_of_fmap_2.
Qed.

Lemma NoDup_snoc {A} (l : list A) x : NoDup l → x ∉ l → NoDup (l ++ [x]).
Proof.
  intros Hl Hx. apply NoDup_app. split_and!; [done| |apply NoDup_singleton].
  intros y Hy ->%list_elem_of_singleton. done.
Qed.

Lemma integrity_pending_user d new :
  integrity d →
  User.email (new (users_id_seq d)) ∉ User.email <$> users d →
  User.username (new (users_id_seq d)) ∉ User.username <$> users d →
  user_columns_ok (new (users_id_seq d)) = true →
  integrity (pending_user d new).
Proof.
  intros (He & Hu & Hfk & Huc & Hnc) Hemail Hname Hcols.
  unfold integrity. simpl. rewrite !fmap_app. simpl.
  split_and!; try done.
  - by apply NoDup_snoc.
  - by apply NoDup_snoc.
  - eapply Forall_impl; [exact Hfk|]. simpl. intros n Hn.
    apply elem_of_app. by left.
  - apply Forall_app. by rewrite Forall_singleton.
Qed.

(** C8. Registering with the email of an existing user fails with the 400
    "Email already registered" and adds no row; when neither the email nor
    the username is present (and the new row meets the column constraints)
    the password is hashed and a new active user is persisted. *)
Theorem register_uniqueness d user :
  consistent d →
  (∀ u, u ∈ users d → User.email u = uc_email user →
     run (create_user user) d =
     (Raise (HTTPException HTTP_400_BAD_REQUEST "Email already registered"),
      d)) ∧
  (get_user_by_email d (uc_email user) = None →
   get_user_by_username d (uc_username user) = None →
   let u := User.mk (users_id_seq d) (uc_email user) (uc_username user)
                    (get_password_hash (uc_password user)) true in
   user_columns_ok u = true →
   ∃ d', run (create_user user) d = (Return u, d') ∧
         users d' = (users d ++ [u])%list ∧ notes d' = notes d).
Proof.
  intros Hd. rewrite run_create_user. split.
  - intros u Hu Hemail.
    destruct (get_user_by_email_present d u Hu) as [u' Hq].
    rewrite <- Hemail. by rewrite Hq.
  - intros Hemail Hname u Hcols. rewrite Hemail, Hname. cbv zeta.
    rewrite decide_True.
    + rewrite refresh_after_add_user by done. by eexists.
    + apply integrity_pending_user; [apply Hd|..|done].
      * by apply get_user_by_email_None.
      * by apply get_user_by_username_None.
Qed.

(** ** Pagination *)

Lemma run_read_user_notes skip limit current_user d :
  run (read_user_notes skip limit current_user) d =
  match run (Query 0 0 None skip) d, run (Query 100 1 (Some 1000) limit) d with
  | (Return s, _), (Return l, _) =>
      (Return (get_user_notes d (User.id current_user) s l), d)
  | (Raise e, _), _ | _, (Raise e, _) => (Raise e, d)
  end.
Proof.
  unfold run, read_user_notes, bind, Query, query, ret, raise.
  destruct skip as [s|], limit as [l|]; simpl;
    repeat (destruct (bool_decide _); simpl); done.
Qed.

Lemma run_read_public_notes skip limit d :
  run (read_public_notes skip limit) d =
  match run (Query 0 0 None skip) d, run (Query 100 1 (Some 1000) limit) d with
  | (Return s, _), (Return l, _) => (Return (get_public_notes d s l), d)
  | (Raise e, _), _ | _, (Raise e, _) => (Raise e, d)
  end.
Proof.
  unfold run, read_public_notes, bind, Query, query, ret, raise.
  destruct skip as [s|], limit as [l|]; simpl;
    repeat (destruct (bool_decide _); simpl); done.
Qed.

Lemma Query_rejects default ge le v d :
  v < ge ∨ (∃ hi, le = Some hi ∧ hi < v) →
  run (Query default ge le (Some v)) d = (Raise RequestValidationError, d).
Proof.
  intros Hbad. unfold run, Query.
  destruct (bool_decide (ge ≤ v) && _) eqn:Hok; [|done].
  apply andb_prop in Hok as [Hge%bool_decide_eq_true Hle].
  destruct Hbad as [?|(hi & -> & Hhi)]; [lia|].
  simpl in Hle. apply bool_decide_eq_true in Hle. lia.
Qed.

Lemma Query_outcome default ge le given d :
  (∃ v, run (Query default ge le given) d = (Return v, d)) ∨
  run (Query default ge le given) d = (Raise RequestValidationError, d).
Proof.
  unfold run, Query. destruct given as [v|]; [|by left; eexists].
  destruct (_ && _); [by left; eexists|by right].
Qed.

(** C9. Both list handlers reject limit=0, limit=1001 and a negative skip
    at validation; and for a user who owns 150 notes, skip=0 limit=100
    returns the first 100 of them and skip=100 limit=100 the other 50. *)
Theorem pagination_contract d current_user :
  length (filter (λ n, Note.owner_id n = User.id current_user) (notes d))
    = 150%nat →
  (∀ skip limit,
     limit = Some 0 ∨ limit = Some 1001 ∨ (∃ s, skip = Some s ∧ s < 0) →
     run (read_user_notes skip limit current_user) d =
       (Raise RequestValidationError, d) ∧
     run (read_public_notes skip limit) d =
       (Raise RequestValidationError, d)) ∧
  ∃ page1 page2,
    run (read_user_notes (Some 0) (Some 100) current_user) d =
      (Return page1, d) ∧
    run (read_user_notes (Some 100) (Some 100) current_user) d =
      (Return page2, d) ∧
    length page1 = 100%nat ∧ length page2 = 50%nat ∧
    (page1 ++ page2)%list =
      filter (λ n, Note.owner_id n = User.id current_user) (notes d).
Proof.
  intros Hlen. split.
  - intros skip limit Hbad.
    rewrite run_read_user_notes, run_read_public_notes.
    destruct Hbad as [->|[->|(s & -> & Hs)]].
    + rewrite (Query_rejects 100 1 (Some 1000) 0) by (left; lia).
      by destruct (Query_outcome 0 0 None skip d) as [[v ->] | ->].
    + rewrite (Query_rejects 100 1 (Some 1000) 1001) by (right; eexists; split; [done|lia]).
      by destruct (Query_outcome 0 0 None skip d) as [[v ->] | ->].
    + by rewrite (Query_rejects 0 0 None s) by (left; lia).
  - do 2 eexists. rewrite !run_read_user_notes.
    split_and!; [done|done|..].
    + unfold get_user_notes. rewrite length_take, length_drop, Hlen. lia.
    + unfold get_user_notes. rewrite length_take, length_drop, Hlen. lia.
    + unfold get_user_notes. simpl.
      change (Z.to_nat 100) with 100%nat. rewrite drop_0.
      rewrite (take_ge (drop _ _)) by (rewrite length_drop, Hlen; lia).
      apply take_drop.
Qed.

(** ** Histories: every reachable store is consistent and keeps owners *)

Lemma continues_refl d o : continues d o d.
Proof. intros n Hn. left. by exists n. Qed.

Lemma continues_same_notes d o d' : notes d' = notes d → continues d o d'.
Proof. intros Heq n Hn. left. exists n. by rewrite <- Heq. Qed.

Lemma create_user_step d user :
  consistent d →
  consistent (run (create_user user) d).2 ∧
  continues d None (run (create_user user) d).2.
Proof.
  intros Hd. rewrite run_create_user.
  destruct (get_user_by_email _ _); [by split; [|apply continues_refl]|].
  destruct (get_user_by_username _ _); [by split; [|apply continues_refl]|].
  cbv zeta. destruct (decide (integrity _)) as [Hok|_];
    [|by split; [|apply continues_refl]].
  destruct (head _); simpl.
  all: split; [by apply consistent_pending_user|by apply continues_same_notes].
Qed.

Lemma update_note_step d note_id upd user_id :
  consistent d →
  consistent (run (update_note note_id upd user_id) d).2 ∧
  continues d None (run (update_note note_id upd user_id) d).2.
Proof.
  intros Hd. rewrite run_update_note.
  assert (∀ pk, continues d None (pending_update d pk upd)) as Hcont.
  { intros pk n' (n & -> & Hn)%list_elem_of_fmap. left. exists n.
    split_and!; [done|..]; unfold on_row; case_decide; try done.
    - apply patch_id.
    - apply patch_owner_id. }
  destruct (get_note _ _ _) as [n|]; [|by split; [|apply continues_refl]].
  cbv zeta. destruct (decide (integrity _)) as [Hok|_];
    [|by split; [|apply continues_refl]].
  destruct (head _); simpl.
  all: split; [by apply consistent_pending_update|apply Hcont].
Qed.

Lemma delete_note_step d note_id user_id :
  consistent d →
  consistent (run (delete_note note_id user_id) d).2 ∧
  continues d None (run (delete_note note_id user_id) d).2.
Proof.
  intros Hd. rewrite run_delete_note.
  destruct (get_note _ _ _) as [n|]; [|by split; [|apply continues_refl]].
  cbv zeta. destruct (decide (integrity _)) as [Hok|_];
    [|by split; [|apply continues_refl]].
  simpl. split; [by apply consistent_pending_delete|].
  intros n' [_ Hn]%list_elem_of_filter. left. by exists n'.
Qed.

Lemma create_note_step d note user_id :
  consistent d →
  consistent (run (create_note note user_id) d).2 ∧
  continues d
    (if (run (create_note note user_id) d).1 is Return _
     then Some user_id else None)
    (run (create_note note user_id) d).2 ∧
  (∀ n, (run (create_note note user_id) d).1 = Return n →
        Note.id n = notes_id_seq d).
Proof.
  intros Hd. rewrite run_create_note. cbv zeta.
  case_decide as Hok; [|by split_and!; [|apply continues_refl|]].
  rewrite refresh_after_add_note by done. simpl.
  split_and!; [by apply consistent_pending_note| |by intros n [= <-]].
  intros n' [Hn|Hn%list_elem_of_singleton]%elem_of_app.
  - left. by exists n'.
  - subst n'. by right.
Qed.

Lemma exec_step c w :
  consistent (db w) →
  consistent (db (exec c w)) ∧
  ∀ n', n' ∈ notes (db (exec c w)) →
    (∃ n, n ∈ notes (db w) ∧ Note.id n' = Note.id n ∧
          Note.owner_id n' = Note.owner_id n ∧
          creator (exec c w) !! Note.id n = creator w !! Note.id n) ∨
    (Note.id n' = notes_id_seq (db w) ∧
     creator (exec c w) !! Note.id n' = Some (Note.owner_id n')).
Proof.
  intros Hd.
  assert (∀ d', continues (db w) None d' →
            ∀ n', n' ∈ notes d' →
              (∃ n, n ∈ notes (db w) ∧ Note.id n' = Note.id n ∧
                    Note.owner_id n' = Note.owner_id n ∧
                    creator w !! Note.id n = creator w !! Note.id n) ∨
              (Note.id n' = notes_id_seq (db w) ∧
               creator w !! Note.id n' = Some (Note.owner_id n'))) as Hsame.
  { intros d' Hc n' Hn'. destruct (Hc n' Hn') as [(n & ? & ? & ?)|[_ [=]]].
    left. by exists n. }
  destruct c as [user|body cu|note_id body cu|note_id cu]; simpl.
  - destruct (create_user_step (db w) user Hd) as [Hd' Hc]. split; [done|].
    by apply Hsame.
  - unfold POST_notes. rewrite run_Body.
    destruct (NoteCreate_validate body) as [note|];
      [|split; [done|apply Hsame, continues_refl]].
    unfold create_user_note.
    destruct (create_note_step (db w) note (User.id cu) Hd)
      as (Hd' & Hc & Hid).
    destruct (run (create_note note (User.id cu)) (db w)) as [[n|e] d'];
      simpl in *; [|split; [done|by apply Hsame]].
    split; [done|]. intros n' Hn'.
    destruct (Hc n' Hn') as [(m & Hm & Hidm & Hown)|[Hidn [= Hown]]].
    + left. exists m. split_and!; try done.
      rewrite lookup_insert_ne; [done|].
      rewrite (Hid n eq_refl). intros Heq.
      destruct Hd as (_ & Hlt & _). rewrite Forall_forall in Hlt.
      specialize (Hlt m Hm). simpl in Hlt. lia.
    + right. split; [done|].
      rewrite (Hid n eq_refl), Hidn, lookup_insert_eq. by rewrite Hown.
  - unfold PUT_note. rewrite run_Body.
    destruct (NoteUpdate_validate body) as [upd|];
      [|split; [done|apply Hsame, continues_refl]].
    destruct (update_note_step (db w) note_id upd (User.id cu) Hd)
      as [Hd' Hc].
    split; [done|]. by apply Hsame.
  - unfold delete_user_note. rewrite run_then_ret.
    destruct (delete_note_step (db w) note_id (User.id cu) Hd) as [Hd' Hc].
    destruct (run (delete_note note_id (User.id cu)) (db w)) as [[b|e] d'];
      simpl in *; (split; [done|by apply Hsame]).
Qed.

Lemma consistent_empty_db : consistent empty_db.
Proof. repeat split; simpl; by constructor. Qed.

Lemma reachable_invariant w :
  reachable w → consistent (db w) ∧ owners_recorded w.
Proof.
  induction 1 as [|c w Hw [Hd Hrec]].
  - split; [apply consistent_empty_db|]. intros n Hn. inversion Hn.
  - destruct (exec_step c w Hd) as [Hd' Hstep]. split; [done|].
    intros n' Hn'.
    destruct (Hstep n' Hn') as [(n & Hn & Hid & Hown & Hcr)|[_ Hnew]];
      [|done].
    rewrite Hid, Hcr, Hown. by apply Hrec.
Qed.

(** C10. The dict an update applies has no other keys than title, content
    and is_public, and any other key of the body of PUT /notes/{id} is
    without effect; in every state the service can reach, each note's owner
    is the requester recorded when the note was created; and no request
    turns a note of such a state into a note with another owner. *)
Theorem owner_is_immutable w :
  reachable w →
  (∀ upd a, a ∈ NoteUpdate_dict_exclude_unset upd →
     attr_name a ∈ ["title"; "content"; "is_public"]) ∧
  (∀ note_id body key v current_user,
     key ∉ ["title"; "content"; "is_public"] →
     run (PUT_note note_id (<[key := v]> body) current_user) (db w) =
     run (PUT_note note_id body current_user) (db w)) ∧
  (∀ n, n ∈ notes (db w) →
     creator w !! Note.id n = Some (Note.owner_id n)) ∧
  (∀ c n n', n ∈ notes (db w) → n' ∈ notes (db (exec c w)) →
     Note.id n' = Note.id n → Note.owner_id n' = Note.owner_id n).
Proof.
  intros Hw. destruct (reachable_invariant w Hw) as [Hd Hrec].
  split_and!.
  - intros upd a _. destruct a; simpl; set_solver.
  - intros note_id body key v cu Hkey. unfold PUT_note.
    by rewrite !run_Body, NoteUpdate_validate_extra.
  - exact Hrec.
  - intros c n n' Hn Hn' Hid.
    destruct (exec_step c w Hd) as [_ Hstep].
    destruct (Hstep n' Hn') as [(m & Hm & Hidm & Hown & _)|[Hnew _]].
    + rewrite Hown. f_equal. eapply (key_inj Note.id); eauto; [apply Hd|].
      congruence.
    + destruct Hd as (_ & Hlt & _). rewrite Forall_forall in Hlt.
      specialize (Hlt n Hn). simpl in Hlt. lia.
Qed.

(** ** Further properties of the handlers *)

Lemma get_note_inv d note_id user_id n :
  get_note d note_id user_id = Some n →
  n ∈ notes d ∧ Note.id n = note_id ∧ Note.owner_id n = user_id.
Proof. intros Hq. apply head_filter_Some in Hq. tauto. Qed.

Lemma get_public_note_inv d note_id n :
  get_public_note d note_id = Some n →
  n ∈ notes d ∧ Note.id n = note_id ∧ Note.is_public n = Some true.
Proof. intros Hq. apply head_filter_Some in Hq. tauto. Qed.

(** X1. On a consistent store reading never writes, and read_note returns
    note n exactly when n is the stored note of that id and the requester
    owns it or it is public; in every other case it answers 404. *)
Theorem read_note_access d note_id current_user :
  consistent d →
  (∀ r d', run (read_note note_id current_user) d = (r, d') → d' = d) ∧
  (∀ n, run (read_note note_id current_user) d = (Return n, d) ↔
        n ∈ notes d ∧ Note.id n = note_id ∧
        (Note.owner_id n = User.id current_user ∨
         Note.is_public n = Some true)) ∧
  ((¬ ∃ n, n ∈ notes d ∧ Note.id n = note_id ∧
           (Note.owner_id n = User.id current_user ∨
            Note.is_public n = Some true)) →
   run (read_note note_id current_user) d =
     (Raise (HTTPException HTTP_404_NOT_FOUND "Note not found"), d)).
Proof.
  intros Hd. rewrite run_read_note.
  destruct (get_note d note_id (User.id current_user)) as [m|] eqn:Hown.
  { apply get_note_inv in Hown as (Hm & Hid & Ho).
    split_and!.
    - by intros r d' [= _ <-].
    - intros n. split.
      + intros [= <-]. auto.
      + intros (Hn & Hidn & _). do 2 f_equal.
        eapply (key_inj Note.id); eauto; [apply Hd|congruence].
    - intros Hnone. destruct Hnone. exists m. auto. }
  destruct (get_public_note d note_id) as [m|] eqn:Hpub.
  { apply get_public_note_inv in Hpub as (Hm & Hid & Hp).
    split_and!.
    - by intros r d' [= _ <-].
    - intros n. split.
      + intros [= <-]. auto.
      + intros (Hn & Hidn & _). do 2 f_equal.
        eapply (key_inj Note.id); eauto; [apply Hd|congruence].
    - intros Hnone. destruct Hnone. exists m. auto. }
  unfold get_note in Hown. unfold get_public_note in Hpub.
  rewrite head_filter_None in Hown. rewrite head_filter_None in Hpub.
  split_and!.
  - by intros r d' [= _ <-].
  - intros n. split; [done|].
    intros (Hn & Hidn & [Ho|Hp]).
    + destruct (Hown n Hn). auto.
    + destruct (Hpub n Hn). auto.
  - done.
Qed.

(** X2. What the list handlers return: read_user_notes answers only with
    notes of the store that the requester owns, read_public_notes only with
    public ones, in storage order, never more than the limit (100 when none
    is given, 1000 at most), and neither changes the store. *)
Theorem list_handlers_scope d skip limit current_user :
  (∀ l d', run (read_user_notes skip limit current_user) d = (Return l, d') →
     d' = d ∧
     l `sublist_of` notes d ∧
     Forall (λ n, Note.owner_id n = User.id current_user) l ∧
     (length l ≤ 1000)%nat ∧
     (limit = None → (length l ≤ 100)%nat) ∧
     (∀ k, limit = Some k → (length l ≤ Z.to_nat k)%nat)) ∧
  (∀ l d', run (read_public_notes skip limit) d = (Return l, d') →
     d' = d ∧
     l `sublist_of` notes d ∧
     Forall (λ n, Note.is_public n = Some true) l ∧
     (length l ≤ 1000)%nat ∧
     (limit = None → (length l ≤ 100)%nat) ∧
     (∀ k, limit = Some k → (length l ≤ Z.to_nat k)%nat)).
Proof.
  assert (∀ k, run (Query 100 1 (Some 1000) limit) d = (Return k, d) →
            1 ≤ k ≤ 1000 ∧ (limit = None → k = 100) ∧
            (∀ k', limit = Some k' → k = k')) as Hlimit.
  { intros k. unfold run, Query. destruct limit as [v|]; simpl.
    - destruct (bool_decide (1 ≤ v)) eqn:H1; simpl; [|done].
      destruct (bool_decide (v ≤ 1000)) eqn:H2; simpl; [|done].
      apply bool_decide_eq_true in H1, H2. intros [= <-].
      split_and!; [lia|lia|done|by intros k' [= <-]].
    - intros [= <-]. split_and!; [lia|lia|done|done]. }
  assert (∀ (P : Note.t → Prop) `{∀ n, Decision (P n)} s k,
            1 ≤ k ≤ 1000 →
            let l := take (Z.to_nat k) (drop (Z.to_nat s) (filter P (notes d)))
            in l `sublist_of` notes d ∧ Forall P l ∧
               (length l ≤ Z.to_nat k)%nat) as Hpage.
  { intros P HP s k Hk l. split_and!.
    - etrans; [apply sublist_take|]. etrans; [apply sublist_drop|].
      apply sublist_filter.
    - apply Forall_take, Forall_drop, Forall_forall.
      by intros n [? _]%list_elem_of_filter.
    - unfold l. rewrite length_take. lia. }
  split; intros l d'.
  - rewrite run_read_user_notes.
    destruct (Query_outcome 0 0 None skip d) as [[s ->] | ->];
      [|by destruct (run (Query 100 1 _ limit) d) as [[?|?] ?]].
    destruct (Query_outcome 100 1 (Some 1000) limit d) as [[k Hk] | ->];
      [|done].
    rewrite Hk. intros [= <- <-].
    destruct (Hlimit k Hk) as (Hrange & Hnone & Hsome).
    destruct (Hpage (λ n, Note.owner_id n = User.id current_user) _ s k Hrange)
      as (Hsub & Hall & Hlen).
    unfold get_user_notes. split_and!; try done.
    + lia.
    + intros ->%Hnone. simpl in Hlen. lia.
    + by intros k' <-%Hsome.
  - rewrite run_read_public_notes.
    destruct (Query_outcome 0 0 None skip d) as [[s ->] | ->];
      [|by destruct (run (Query 100 1 _ limit) d) as [[?|?] ?]].
    destruct (Query_outcome 100 1 (Some 1000) limit d) as [[k Hk] | ->];
      [|done].
    rewrite Hk. intros [= <- <-].
    destruct (Hlimit k Hk) as (Hrange & Hnone & Hsome).
    destruct (Hpage (λ n, Note.is_public n = Some true) _ s k Hrange)
      as (Hsub & Hall & Hlen).
    unfold get_public_notes. split_and!; try done.
    + lia.
    + intros ->%Hnone. simpl in Hlen. lia.
    + by intros k' <-%Hsome.
Qed.


(** X4. Registering under the username of an existing user fails with a
    400 and adds no row; the email is checked first, so the detail is
    "Username already taken" when the email is free and "Email already
    registered" when it is not. *)
Theorem register_username_taken d user u :
  u ∈ users d → User.username u = uc_username user →
  (get_user_by_email d (uc_email user) = None →
     run (create_user user) d =
     (Raise (HTTPException HTTP_400_BAD_REQUEST "Username already taken"),
      d)) ∧
  (is_Some (get_user_by_email d (uc_email user)) →
     run (create_user user) d =
     (Raise (HTTPException HTTP_400_BAD_REQUEST "Email already registered"),
      d)) ∧
  (run (create_user user) d).2 = d.
Proof.
  intros Hu Hname. rewrite run_create_user.
  assert (is_Some (get_user_by_username d (uc_username user))) as [u' Hq].
  { destruct (get_user_by_username d (uc_username user)) eqn:Hq; [done|].
    apply get_user_by_username_None in Hq. destruct Hq.
    rewrite <- Hname. by apply list_elem_of_fmap_2. }
  rewrite Hq. split_and!.
  - by intros ->.
  - by intros [? ->].
  - by destruct (get_user_by_email _ _).
Qed.

(** ** Login *)

Lemma get_user_by_username_unique d u :
  consistent d → u ∈ users d →
  get_user_by_username d (User.username u) = Some u.
Proof.
  intros (_ & _ & _ & _ & _ & Hnames & _) Hu. unfold get_user_by_username.
  by apply (head_filter_key User.username).
Qed.

(** X5. On a consistent store authenticate_user returns user u exactly when
    u is the stored user of that username and the password verifies against
    u's hash; an unknown username gives None, like a wrong password. *)
Theorem authenticate_user_exact verify_password d username password :
  consistent d →
  (∀ u, authenticate_user verify_password d username password = Some u ↔
        u ∈ users d ∧ User.username u = username ∧
        verify_password password (User.hashed_password u) = true) ∧
  (username ∉ User.username <$> users d →
   authenticate_user verify_password d username password = None).
Proof.
  intros Hd. unfold authenticate_user. split.
  - intros u. split.
    + destruct (get_user_by_username d username) as [u'|] eqn:Hq; [|done].
      apply get_user_by_username_Some in Hq as [Hu' Hname].
      destruct (verify_password _ _) eqn:Hv; [|done].
      by intros [= <-].
    + intros (Hu & <- & Hv).
      by rewrite get_user_by_username_unique, Hv.
  - intros Hno.
    destruct (get_user_by_username d username) as [u'|] eqn:Hq; [|done].
    apply get_user_by_username_Some in Hq as [Hu' <-].
    destruct Hno. by apply list_elem_of_fmap_2.
Qed.

Lemma run_create_user_Return d user u d' :
  consistent d → run (create_user user) d = (Return u, d') →
  get_user_by_username d (uc_username user) = None ∧
  u = User_new (uc_email user) (uc_username user)
        (get_password_hash (uc_password user)) (users_id_seq d) ∧
  d' = pending_user d (User_new (uc_email user) (uc_username user)
                         (get_password_hash (uc_password user))) ∧
  consistent d'.
Proof.
  intros Hd. rewrite run_create_user.
  destruct (get_user_by_email _ _); [done|].
  destruct (get_user_by_username _ _); [done|].
  cbv zeta. case_decide as Hok; [|done].
  rewrite refresh_after_add_user by done. intros [= <- <-].
  split_and!; try done. by apply consistent_pending_user.
Qed.

(** X6. Register, then log in: after a successful registration the new
    user authenticates with the same username and password as soon as the
    verifier accepts the hasher's output for that password, a password the
    verifier refuses gives None, and before the registration that username
    did not authenticate at all. *)
Theorem register_then_authenticate verify_password d user u d' :
  consistent d → run (create_user user) d = (Return u, d') →
  (verify_password (uc_password user)
     (get_password_hash (uc_password user)) = true →
   authenticate_user verify_password d' (uc_username user)
     (uc_password user) = Some u) ∧
  (∀ password,
     verify_password password
       (get_password_hash (uc_password user)) = false →
     authenticate_user verify_password d' (uc_username user) password
       = None) ∧
  (∀ password,
     authenticate_user verify_password d (uc_username user) password = None).
Proof.
  intros Hd Hrun.
  destruct (run_create_user_Return d user u d' Hd Hrun)
    as (Hfree & -> & -> & Hd').
  set (u := User_new _ _ _ _).
  assert (get_user_by_username
            (pending_user d (User_new (uc_email user) (uc_username user)
                               (get_password_hash (uc_password user))))
            (uc_username user) = Some u) as Hq.
  { apply (get_user_by_username_unique _ u Hd').
    simpl. apply elem_of_app. right. by apply list_elem_of_singleton. }
  unfold authenticate_user. rewrite Hq, Hfree. simpl.
  split_and!; [by intros ->|by intros password ->|done].
Qed.

(** ** Creating, then reading *)

Lemma run_create_note_Return d note user_id n d' :
  consistent d → run (create_note note user_id) d = (Return n, d') →
  n = Note_new note user_id (notes_id_seq d) ∧
  d' = pending_note d (Note_new note user_id) ∧
  consistent d'.
Proof.
  intros Hd. rewrite run_create_note_consistent by done.
  case_decide as Hok; [|done]. intros [= <- <-].
  split_and!; try done. by apply consistent_pending_note.
Qed.

Lemma get_note_pending_note d new note_id user_id :
  Note.id (new (notes_id_seq d)) = notes_id_seq d →
  note_id ≠ notes_id_seq d →
  get_note (pending_note d new) note_id user_id = get_note d note_id user_id.
Proof.
  intros Hid Hne. unfold get_note. simpl. rewrite filter_app.
  rewrite (filter_cons_False _ (new _)) by (intros [? _]; congruence).
  by rewrite filter_nil, app_nil_r.
Qed.

Lemma get_public_note_pending_note d new note_id :
  Note.id (new (notes_id_seq d)) = notes_id_seq d →
  note_id ≠ notes_id_seq d →
  get_public_note (pending_note d new) note_id = get_public_note d note_id.
Proof.
  intros Hid Hne. unfold get_public_note. simpl. rewrite filter_app.
  rewrite (filter_cons_False _ (new _)) by (intros [? _]; congruence).
  by rewrite filter_nil, app_nil_r.
Qed.

(** X7. Create, then read: the note that create_user_note returns is read
    back unchanged by its owner and is the last row of the owner's listing;
    a note created private is a 404 for every other user and one created
    public is returned to everyone; what any user reads of the notes that
    were already there is as before. *)
Theorem create_then_read d note current_user n d' :
  consistent d →
  run (create_user_note note current_user) d = (Return n, d') →
  run (read_note (Note.id n) current_user) d' = (Return n, d') ∧
  filter (λ m, Note.owner_id m = User.id current_user) (notes d') =
    (filter (λ m, Note.owner_id m = User.id current_user) (notes d)
       ++ [n])%list ∧
  (nc_is_public note = false →
   ∀ reader, User.id reader ≠ User.id current_user →
     run (read_note (Note.id n) reader) d' =
     (Raise (HTTPException HTTP_404_NOT_FOUND "Note not found"), d')) ∧
  (nc_is_public note = true →
   ∀ reader, run (read_note (Note.id n) reader) d' = (Return n, d')) ∧
  (∀ m reader, m ∈ notes d →
     (run (read_note (Note.id m) reader) d').1 =
     (run (read_note (Note.id m) reader) d).1).
Proof.
  intros Hd Hrun. unfold create_user_note in Hrun.
  destruct (run_create_note_Return _ _ _ _ _ Hd Hrun) as (Hn & -> & Hd').
  assert (n ∈ notes (pending_note d (Note_new note (User.id current_user))))
    as Hin.
  { simpl. apply elem_of_app. right. rewrite Hn.
    by apply list_elem_of_singleton. }
  assert (Note.owner_id n = User.id current_user) as Hown by by rewrite Hn.
  pose proof (get_note_owner _ n Hd' Hin) as Hget. rewrite Hown in Hget.
  split_and!.
  - by rewrite run_read_note, Hget.
  - simpl. rewrite filter_app, filter_cons_True by done. by rewrite Hn.
  - intros Hpriv reader Hne. rewrite run_read_note.
    rewrite get_note_not_owner, get_public_note_private; try done.
    + rewrite Hn. simpl. by rewrite Hpriv.
    + by rewrite Hown.
  - intros Hpub reader. rewrite run_read_note.
    destruct (decide (User.id reader = User.id current_user)) as [->|Hne].
    + by rewrite Hget.
    + rewrite get_note_not_owner, get_public_note_public; try done.
      * rewrite Hn. simpl. by rewrite Hpub.
      * by rewrite Hown.
  - intros m reader Hm. rewrite !run_read_note.
    assert (Note.id m ≠ notes_id_seq d) as Hne.
    { destruct Hd as (_ & Hlt & _). rewrite Forall_forall in Hlt.
      specialize (Hlt m Hm). simpl in Hlt. lia. }
    rewrite get_note_pending_note, get_public_note_pending_note by done.
    destruct (get_note d _ _); [done|]. by destruct (get_public_note d _).
Qed.

(** ** Changing the visibility of a note *)

Lemma run_update_note_owner_Return d n upd r d' :
  consistent d → n ∈ notes d →
  run (update_note (Note.id n) upd (Note.owner_id n)) d = (Return r, d') →
  r = patch upd n ∧ d' = pending_update d (Note.id n) upd ∧
  consistent d' ∧ r ∈ notes d'.
Proof.
  intros Hd Hn. rewrite run_update_note_owner by done.
  case_decide as Hok; [|done]. intros [= <- <-].
  split_and!; try done.
  - by apply consistent_pending_update.
  - simpl. apply list_elem_of_fmap. exists n. split; [|done].
    unfold on_row. by rewrite decide_True.
Qed.

(** X8. A visibility update takes effect at once: when the owner's update
    sets is_public to true, every user reads the updated note and it is
    among the public notes; when it sets it to anything else, the owner
    still reads it, every other user gets 404 and no page of the public
    listing contains it. *)
Theorem visibility_update_takes_effect d n upd v r d' :
  consistent d → n ∈ notes d →
  nu_is_public upd = supplied v →
  run (update_note (Note.id n) upd (Note.owner_id n)) d = (Return r, d') →
  (v = Some true →
     (∀ reader, run (read_note (Note.id n) reader) d' = (Return r, d')) ∧
     r ∈ filter (λ m, Note.is_public m = Some true) (notes d')) ∧
  (v ≠ Some true →
     (∀ reader, User.id reader = Note.owner_id n →
        run (read_note (Note.id n) reader) d' = (Return r, d')) ∧
     (∀ reader, User.id reader ≠ Note.owner_id n →
        run (read_note (Note.id n) reader) d' =
        (Raise (HTTPException HTTP_404_NOT_FOUND "Note not found"), d')) ∧
     (∀ skip limit, r ∉ get_public_notes d' skip limit)).
Proof.
  intros Hd Hn Hv Hrun.
  destruct (run_update_note_owner_Return _ _ _ _ _ Hd Hn Hrun)
    as (Hr & _ & Hd' & Hin).
  assert (Note.id r = Note.id n) as Hid by (rewrite Hr; apply patch_id).
  assert (Note.owner_id r = Note.owner_id n) as Hown
    by (rewrite Hr; apply patch_owner_id).
  assert (Note.is_public r = v) as Hvis.
  { destruct (patch_fields upd n) as (_ & _ & Hp). by rewrite Hr, Hp, Hv. }
  rewrite <- Hid, <- Hown. split.
  - intros ->. split.
    + intros reader. rewrite run_read_note.
      destruct (decide (User.id reader = Note.owner_id r)) as [->|Hne].
      * by rewrite get_note_owner.
      * by rewrite get_note_not_owner, get_public_note_public.
    + by apply list_elem_of_filter.
  - intros Hpriv. split_and!.
    + intros reader Heq. by rewrite run_read_note, Heq, get_note_owner.
    + intros reader Hne. rewrite run_read_note.
      rewrite get_note_not_owner, get_public_note_private; try done.
      by rewrite Hvis.
    + intros skip limit Hpage. unfold get_public_notes in Hpage.
      eapply elem_of_sublist in Hpage;
        [|etrans; [apply sublist_take|apply sublist_drop]].
      apply list_elem_of_filter in Hpage as [Hpub _]. congruence.
Qed.

(** ** Repeating an update, and the empty update *)

Lemma patch_patch upd n : patch upd (patch upd n) = patch upd n.
Proof. by destruct upd as [[|?] [|?] [|?]], n. Qed.


Lemma pending_update_again d pk upd :
  pending_update (pending_update d pk upd) pk upd = pending_update d pk upd.
Proof.
  unfold pending_update, with_notes. simpl. f_equal.
  rewrite <- list_fmap_compose. apply list_fmap_ext. intros ? m _. simpl.
  unfold on_row. destruct (decide (Note.id m = pk)) as [Heq|Hne].
  - rewrite decide_True by by rewrite patch_id. apply patch_patch.
  - by rewrite decide_False.
Qed.

(** X9. An update is idempotent, as the handler's docstring says: when an
    update succeeds, the same request made again succeeds too, returns the
    same note and leaves the store as the first one left it. *)
Theorem update_note_idempotent d note_id upd current_user r d' :
  consistent d →
  run (update_user_note note_id upd current_user) d = (Return r, d') →
  run (update_user_note note_id upd current_user) d' = (Return r, d') ∧
  run (update_note note_id upd (User.id current_user)) d' = (Return r, d').
Proof.
  intros Hd. unfold update_user_note. intros Hrun.
  assert (run (update_note note_id upd (User.id current_user)) d' =
          (Return r, d')) as Hagain; [|done].
  destruct (get_note d note_id (User.id current_user)) as [n|] eqn:Hget;
    [|by rewrite run_update_note, Hget in Hrun].
  apply get_note_inv in Hget as (Hn & <- & Hown). rewrite <- Hown in *.
  destruct (run_update_note_owner_Return _ _ _ _ _ Hd Hn Hrun)
    as (Hr & Hd'eq & Hd' & Hin).
  assert (Note.id n = Note.id r) as Hid by by rewrite Hr, patch_id.
  assert (Note.owner_id n = Note.owner_id r) as Hown'
    by by rewrite Hr, patch_owner_id.
  assert (pending_update d' (Note.id r) upd = d') as Hsame
    by (rewrite Hd'eq, <- Hid; apply pending_update_again).
  rewrite Hid, Hown', run_update_note_owner by done.
  rewrite Hsame, decide_True by apply Hd'.
  by rewrite Hr, patch_patch.
Qed.



(** ** Deleting: what goes and what stays *)

Lemma filter_all {A} (P : A → Prop) `{∀ x, Decision (P x)} (l : list A) :
  Forall P l → filter P l = l.
Proof.
  induction 1 as [|x l Hx Hl IH]; [done|].
  by rewrite filter_cons_True, IH.
Qed.

Lemma run_delete_note_owner d n :
  consistent d → n ∈ notes d →
  run (delete_note (Note.id n) (Note.owner_id n)) d =
  (Return true, pending_delete d (Note.id n)).
Proof.
  intros Hd Hn. rewrite run_delete_note, get_note_owner by done.
  cbv zeta. rewrite decide_True; [done|].
  apply integrity_pending_delete, Hd.
Qed.

Lemma delete_unique_row (l : list Note.t) n :
  NoDup (Note.id <$> l) → n ∈ l →
  ∃ l1 l2, l = (l1 ++ n :: l2)%list ∧
           filter (λ m, Note.id m ≠ Note.id n) l = (l1 ++ l2)%list.
Proof.
  intros Hnd Hn. apply list_elem_of_split in Hn as (l1 & l2 & ->).
  exists l1, l2. split; [done|].
  rewrite fmap_app, fmap_cons in Hnd.
  apply NoDup_app in Hnd as (_ & Hl1 & [Hl2 _]%NoDup_cons).
  rewrite filter_app, filter_cons_False by (intros Hne; by apply Hne).
  rewrite !filter_all; [done|..]; apply Forall_forall; intros m Hm Heq.
  - apply Hl2. rewrite <- Heq. by apply list_elem_of_fmap_2.
  - apply (Hl1 (Note.id m)); [by apply list_elem_of_fmap_2|].
    rewrite Heq. left.
Qed.

Lemma get_note_pending_delete d pk note_id user_id :
  note_id ≠ pk →
  get_note (pending_delete d pk) note_id user_id = get_note d note_id user_id.
Proof.
  intros Hne. unfold get_note. simpl. rewrite list_filter_filter.
  f_equal. apply list_filter_iff. intros m. split; [tauto|].
  intros [Hid Hown]. split_and!; try done. congruence.
Qed.

Lemma get_public_note_pending_delete d pk note_id :
  note_id ≠ pk →
  get_public_note (pending_delete d pk) note_id = get_public_note d note_id.
Proof.
  intros Hne. unfold get_public_note. simpl. rewrite list_filter_filter.
  f_equal. apply list_filter_iff. intros m. split; [tauto|].
  intros [Hid Hpub]. split_and!; try done. congruence.
Qed.

(** X11. Create, then delete: when the owner deletes the note that
    create_user_note has just returned, the notes and the users are again
    what they were before the creation, and only the sequence has moved on,
    so the id is not given out again. *)
Theorem create_then_delete d note current_user n d1 :
  consistent d →
  run (create_user_note note current_user) d = (Return n, d1) →
  ∃ d2,
    run (delete_user_note (Note.id n) current_user) d1 =
      (Return "Note deleted successfully", d2) ∧
    notes d2 = notes d ∧ users d2 = users d ∧
    Note.id n = notes_id_seq d ∧
    notes_id_seq d2 = notes_id_seq d + 1.
Proof.
  intros Hd Hrun. unfold create_user_note in Hrun.
  destruct (run_create_note_Return _ _ _ _ _ Hd Hrun) as (Hn & Hd1eq & Hd1).
  assert (n ∈ notes d1) as Hin.
  { rewrite Hd1eq. simpl. apply elem_of_app. right. rewrite Hn.
    by apply list_elem_of_singleton. }
  assert (Note.owner_id n = User.id current_user) as Hown by by rewrite Hn.
  assert (Note.id n = notes_id_seq d) as Hid by by rewrite Hn.
  pose proof (run_delete_note_owner d1 n Hd1 Hin) as Hdel.
  rewrite Hown in Hdel.
  exists (pending_delete d1 (Note.id n)). split_and!; try done.
  - unfold delete_user_note. by rewrite run_then_ret, Hdel.
  - rewrite Hd1eq. simpl.
    rewrite filter_app, filter_cons_False, filter_nil, app_nil_r.
    + apply filter_all. destruct Hd as (_ & Hlt & _).
      eapply Forall_impl; [exact Hlt|]. simpl. intros m Hm. lia.
    + simpl. intros Hne. by apply Hne.
  - by rewrite Hd1eq.
  - by rewrite Hd1eq.
Qed.

(** X12. A delete removes one row and nothing else: when the owner deletes
    note n the operation succeeds, the notes table is the old one without
    the row of n, in the same order, the users are untouched, and what any
    user reads of any other note is as before. *)
Theorem delete_removes_one_row d n r d1 :
  consistent d → n ∈ notes d →
  run (delete_note (Note.id n) (Note.owner_id n)) d = (r, d1) →
  r = Return true ∧
  (∃ l1 l2, notes d = (l1 ++ n :: l2)%list ∧ notes d1 = (l1 ++ l2)%list) ∧
  users d1 = users d ∧
  (∀ m reader, m ∈ notes d → m ≠ n →
     m ∈ notes d1 ∧
     (run (read_note (Note.id m) reader) d1).1 =
     (run (read_note (Note.id m) reader) d).1).
Proof.
  intros Hd Hn. rewrite run_delete_note_owner by done. intros [= <- <-].
  split_and!; try done.
  - simpl. apply delete_unique_row; [apply Hd|done].
  - intros m reader Hm Hne.
    assert (Note.id m ≠ Note.id n) as Hid.
    { intros Heq. apply Hne. eapply (key_inj Note.id); eauto. apply Hd. }
    split.
    + simpl. by apply list_elem_of_filter.
    + rewrite !run_read_note.
      rewrite get_note_pending_delete, get_public_note_pending_delete by done.
      destruct (get_note d _ _); [done|]. by destruct (get_public_note d _).
Qed.

(** ** Failures, and the states the service reaches *)


(** X14. Every store the service reaches from the empty one is consistent:
    no two users share an email, a username or an id, no two notes share an
    id, and the owner of every note is a user of the store. *)
Theorem reachable_store_consistent w :
  reachable w →
  consistent (db w) ∧
  (∀ u1 u2, u1 ∈ users (db w) → u2 ∈ users (db w) →
     User.email u1 = User.email u2 ∨ User.username u1 = User.username u2 ∨
     User.id u1 = User.id u2 → u1 = u2) ∧
  (∀ n1 n2, n1 ∈ notes (db w) → n2 ∈ notes (db w) →
     Note.id n1 = Note.id n2 → n1 = n2) ∧
  (∀ n, n ∈ notes (db w) →
     ∃ u, u ∈ users (db w) ∧ User.id u = Note.owner_id n).
Proof.
  intros Hw. destruct (reachable_invariant w Hw) as [Hd _].
  split; [done|].
  destruct Hd as (Hnid & _ & Huid & _ & Hemail & Hname & Hfk & _).
  split_and!.
  - intros u1 u2 H1 H2 [Heq|[Heq|Heq]].
    + by eapply (key_inj User.email).
    + by eapply (key_inj User.username).
    + by eapply (key_inj User.id).
  - intros n1 n2 H1 H2 Heq. by eapply (key_inj Note.id).
  - intros n Hn. rewrite Forall_forall in Hfk.
    apply Hfk, list_elem_of_fmap in Hn as (u & Hu & Hin). by exists u.
Qed.

Lemma run_notes_id_seq c w :
  consistent (db w) →
  (creator (exec c w) = creator w ∧
   notes_id_seq (db (exec c w)) = notes_id_seq (db w)) ∨
  (∃ uid, creator (exec c w) = <[notes_id_seq (db w) := uid]> (creator w) ∧
          notes_id_seq (db (exec c w)) = notes_id_seq (db w) + 1).
Proof.
  intros Hd. destruct c as [user|body cu|note_id body cu|note_id cu]; simpl.
  - left. split; [done|]. rewrite run_create_user.
    destruct (get_user_by_email _ _); [done|].
    destruct (get_user_by_username _ _); [done|].
    cbv zeta. case_decide; [|done]. by destruct (head _).
  - unfold POST_notes, create_user_note. rewrite run_Body.
    destruct (NoteCreate_validate body) as [note|]; [|by left].
    rewrite run_create_note_consistent by done.
    case_decide; [|by left]. right. by eexists.
  - left. split; [done|]. unfold PUT_note, update_user_note.
    rewrite run_Body.
    destruct (NoteUpdate_validate body) as [upd|]; [|done].
    rewrite run_update_note.
    destruct (get_note _ _ _); [|done].
    cbv zeta. case_decide; [|done]. by destruct (head _).
  - left. split; [done|]. unfold delete_user_note.
    rewrite run_then_ret, run_delete_note.
    destruct (get_note _ _ _); [|done].
    cbv zeta. by case_decide.
Qed.

Lemma reachable_creator_bound w :
  reachable w →
  ∀ k uid, creator w !! k = Some uid → k < notes_id_seq (db w).
Proof.
  induction 1 as [|c w Hw IH]; [by intros k uid; simpl; rewrite lookup_empty|].
  destruct (reachable_invariant w Hw) as [Hd _].
  intros k uid.
  destruct (run_notes_id_seq c w Hd) as [[-> ->]|(u & -> & ->)];
    [apply IH|].
  destruct (decide (notes_id_seq (db w) = k)) as [<-|Hne].
  - intros _. lia.
  - rewrite lookup_insert_ne by done. intros Hk%IH. lia.
Qed.

(** X15. Note ids are never given out twice: in a reachable state the note
    that POST /notes creates has an id under which no note was created
    before, deleted or not, and no request changes the record of who
    created the note of an id. *)
Theorem note_ids_never_reused w :
  reachable w →
  (∀ body current_user n d',
     run (POST_notes body current_user) (db w) = (Return n, d') →
     creator w !! Note.id n = None ∧
     ∀ m, m ∈ notes (db w) → Note.id m ≠ Note.id n) ∧
  (∀ c k uid, creator w !! k = Some uid →
     creator (exec c w) !! k = Some uid).
Proof.
  intros Hw. destruct (reachable_invariant w Hw) as [Hd Hrec].
  pose proof (reachable_creator_bound w Hw) as Hbound.
  split.
  - intros body cu n d'. unfold POST_notes, create_user_note.
    rewrite run_Body.
    destruct (NoteCreate_validate body) as [note|]; [|done].
    intros (-> & _)%run_create_note_Return; [|done]. simpl. split.
    + destruct (creator w !! notes_id_seq (db w)) as [uid|] eqn:Hk; [|done].
      apply Hbound in Hk. lia.
    + intros m Hm. destruct Hd as (_ & Hlt & _).
      rewrite Forall_forall in Hlt. specialize (Hlt m Hm). simpl in Hlt. lia.
  - intros c k uid Hk.
    destruct (run_notes_id_seq c w Hd) as [[-> _]|(u & -> & _)]; [done|].
    rewrite lookup_insert_ne; [done|].
    apply Hbound in Hk. lia.
Qed.

(** X16. A POST /notes body without a title or without a content is
    rejected at validation and persists nothing, whoever sends it; and a
    body without is_public that validates gives a private note. *)
Theorem note_body_validation d body current_user :
  (body !! "title" = None ∨ body !! "content" = None →
   run (POST_notes body current_user) d = (Raise RequestValidationError, d)) ∧
  (body !! "is_public" = None → consistent d →
   ∀ n d', run (POST_notes body current_user) d = (Return n, d') →
     Note.is_public n = Some false).
Proof.
  unfold POST_notes, create_user_note. rewrite run_Body.
  unfold NoteCreate_validate. split.
  - intros [-> | ->]; simpl; [done|].
    by destruct (_ ≫= _).
  - intros -> Hd n d'. simpl.
    destruct (_ ≫= _) as [t|]; [|done].
    destruct (_ ≫= _) as [c|]; [|done].
    intros Hrun.
    by apply run_create_note_Return in Hrun as (-> & _).
Qed.

End Properties.

(** ** The theorems at work on the sample stores *)

#[local] Existing Instance sample_collaborators.

Lemma sample_db_consistent : consistent sample_db.
Proof. unfold consistent, integrity. split_and!; by_computation. Qed.

Lemma private_note_indistinguishable_witness :
  run (read_note 1 bob) sample_db =
    (Raise (HTTPException HTTP_404_NOT_FOUND "Note not found"), sample_db) ∧
  run (read_note 99 bob) sample_db = run (read_note 1 bob) sample_db.
Proof.
  apply (private_note_indistinguishable sample_db alice bob private_note 99).
  - exact sample_db_consistent.
  - by_computation.
  - by_computation.
  - discriminate.
  - by_computation.
  - reflexivity.
  - discriminate.
  - by_computation.
Defined.

(** C2 as stated fails: a request without credentials is refused with 401
    before any note is looked up, also for a public note. *)
Lemma public_note_unauthenticated_refused :
  consistent sample_db ∧
  public_note ∈ notes sample_db ∧
  Note.is_public public_note = Some true ∧
  run (GET_note None (Note.id public_note)) sample_db =
    (Raise (HTTPException HTTP_401_UNAUTHORIZED "Not authenticated"),
     sample_db) ∧
  run (GET_note None (Note.id public_note)) sample_db ≠
    (Return public_note, sample_db).
Proof.
  split_and!.
  - exact sample_db_consistent.
  - by_computation.
  - reflexivity.
  - reflexivity.
  - discriminate.
Qed.

Lemma public_note_readable_witness :
  run (read_note 2 bob) sample_db = (Return public_note, sample_db) ∧
  run (GET_note (Some "bob") 2) sample_db = (Return public_note, sample_db).
Proof.
  destruct (public_note_readable sample_db public_note) as [Hread Hget].
  - exact sample_db_consistent.
  - by_computation.
  - reflexivity.
  - split.
    + exact (Hread bob).
    + apply (Hget (Some "bob") bob). reflexivity.
Defined.

Lemma write_requires_ownership_witness :
  get_note sample_db 2 2 = None ∧
  run (update_note 2 title_x 2) sample_db =
    (Raise (HTTPException HTTP_404_NOT_FOUND "Note not found"), sample_db) ∧
  run (delete_note 2 2) sample_db =
    (Raise (HTTPException HTTP_404_NOT_FOUND "Note not found"), sample_db) ∧
  run (update_user_note 2 title_x bob) sample_db =
    (Raise (HTTPException HTTP_404_NOT_FOUND "Note not found"), sample_db) ∧
  run (delete_user_note 2 bob) sample_db =
    (Raise (HTTPException HTTP_404_NOT_FOUND "Note not found"), sample_db).
Proof.
  apply (write_requires_ownership sample_db public_note bob title_x).
  - exact sample_db_consistent.
  - by_computation.
  - discriminate.
Defined.

Lemma create_owner_is_caller_witness :
  (∃ d', run (POST_notes sample_body alice) sample_db =
           (Return (Note.mk 3 (Some "t") (Some "c") (Some false) 1), d')) ∧
  (∀ r d', run (POST_notes sample_body alice) sample_db = (r, d') →
     (∃ n, r = Return n ∧ Note.owner_id n = 1 ∧
           notes d' = (notes sample_db ++ [n])%list ∧
           users d' = users sample_db) ∨
     (∃ e, r = Raise e ∧ d' = sample_db)).
Proof.
  destruct (create_owner_is_caller sample_db sample_body alice)
    as (_ & Howner & Hok).
  - exact sample_db_consistent.
  - split; [|exact Howner].
    apply (Hok {| nc_title := "t"; nc_content := "c";
                  nc_is_public := false |}).
    + by_computation.
    + vm_compute. reflexivity.
    + reflexivity.
Defined.

Lemma partial_update_frame_witness :
  ∃ r d',
    run (update_note 1 title_x 1) sample_db = (Return r, d') ∧
    Note.title r = Some "x" ∧
    Note.content r = Note.content private_note ∧
    Note.is_public r = Note.is_public private_note.
Proof.
  destruct (partial_update_frame sample_db private_note title_x)
    as [Hruns Hframe].
  - exact sample_db_consistent.
  - by_computation.
  - destruct Hruns as (r & d' & Hrun); [by_computation|].
    exists r, d'. split; [exact Hrun|].
    destruct (Hframe r d' Hrun) as (Ht & Hc & Hp & _).
    split_and!; [exact Ht|exact Hc|exact Hp].
Defined.

Lemma delete_twice_witness :
  ∃ d1,
    run (delete_note 1 1) sample_db = (Return true, d1) ∧
    run (delete_user_note 1 alice) sample_db =
      (Return "Note deleted successfully", d1) ∧
    notes d1 = filter (λ m, Note.id m ≠ 1) (notes sample_db) ∧
    (private_note ∉ notes d1) ∧
    run (delete_user_note 1 alice) d1 =
      (Raise (HTTPException HTTP_404_NOT_FOUND "Note not found"), d1).
Proof.
  apply (delete_twice sample_db private_note alice).
  - exact sample_db_consistent.
  - by_computation.
  - reflexivity.
Defined.

Lemma update_conflict_rolls_back_witness :
  update_note 1 null_title 1 (open_session sample_db) =
    (Raise (HTTPException HTTP_400_BAD_REQUEST "Note update failed"),
     open_session sample_db) ∧
  run (update_note 1 null_title 1) sample_db =
    (Raise (HTTPException HTTP_400_BAD_REQUEST "Note update failed"),
     sample_db).
Proof.
  eapply (update_conflict_rolls_back sample_db 1 null_title 1 private_note).
  - reflexivity.
  - vm_compute. reflexivity.
Defined.

Lemma register_uniqueness_witness :
  run (create_user alice_registration) sample_db =
    (Raise (HTTPException HTTP_400_BAD_REQUEST "Email already registered"),
     sample_db) ∧
  ∃ d', run (create_user alice_registration) empty_db = (Return alice, d') ∧
        users d' = [alice] ∧ notes d' = [].
Proof.
  split.
  - destruct (register_uniqueness sample_db alice_registration) as [Hdup _].
    + exact sample_db_consistent.
    + apply (Hdup alice); [by_computation|reflexivity].
  - destruct (register_uniqueness empty_db alice_registration) as [_ Hnew].
    + exact consistent_empty_db.
    + apply Hnew; reflexivity.
Defined.

Lemma pagination_contract_witness :
  (∀ skip limit,
     limit = Some 0 ∨ limit = Some 1001 ∨ (∃ s, skip = Some s ∧ s < 0) →
     run (read_user_notes skip limit alice) big_db =
       (Raise RequestValidationError, big_db) ∧
     run (read_public_notes skip limit) big_db =
       (Raise RequestValidationError, big_db)) ∧
  ∃ page1 page2,
    run (read_user_notes (Some 0) (Some 100) alice) big_db =
      (Return page1, big_db) ∧
    run (read_user_notes (Some 100) (Some 100) alice) big_db =
      (Return page2, big_db) ∧
    length page1 = 100%nat ∧ length page2 = 50%nat ∧
    (page1 ++ page2)%list =
      filter (λ n, Note.owner_id n = User.id alice) (notes big_db).
Proof.
  apply (pagination_contract big_db alice).
  vm_compute. reflexivity.
Defined.

Lemma owner_is_immutable_witness :
  reachable sample_world ∧
  run (PUT_note 1 (<["owner_id" := JNum 2]> ∅) alice) (db sample_world) =
    run (PUT_note 1 ∅ alice) (db sample_world) ∧
  (∀ n, n ∈ notes (db sample_world) →
     creator sample_world !! Note.id n = Some (Note.owner_id n)) ∧
  (∀ c n n', n ∈ notes (db sample_world) →
     n' ∈ notes (db (exec c sample_world)) →
     Note.id n' = Note.id n → Note.owner_id n' = Note.owner_id n).
Proof.
  assert (reachable sample_world) as Hreach.
  { unfold sample_world. apply reachable_exec, reachable_exec, reachable_init. }
  split; [exact Hreach|].
  destruct (owner_is_immutable sample_world Hreach)
    as (_ & Hput & Hrec & Hkeep).
  split_and!; [|exact Hrec|exact Hkeep].
  apply Hput. by_computation.
Defined.

(** ** The further properties on the sample stores *)

Lemma read_note_access_witness :
  run (read_note 1 alice) sample_db = (Return private_note, sample_db) ∧
  run (read_note 7 alice) sample_db =
    (Raise (HTTPException HTTP_404_NOT_FOUND "Note not found"), sample_db).
Proof.
  split.
  - destruct (read_note_access sample_db 1 alice sample_db_consistent)
      as (_ & Hiff & _).
    apply Hiff. split_and!; [by_computation|reflexivity|by left].
  - destruct (read_note_access sample_db 7 alice sample_db_consistent)
      as (_ & _ & Hnone).
    apply Hnone. intros (n & Hn & Hid & _). revert Hid. simpl in Hn.
    apply elem_of_cons in Hn as [->|Hn]; [discriminate|].
    apply list_elem_of_singleton in Hn as ->. discriminate.
Defined.

Lemma list_handlers_scope_witness :
  ∃ l, run (read_user_notes None None alice) big_db = (Return l, big_db) ∧
       (length l ≤ 100)%nat ∧
       Forall (λ n, Note.owner_id n = User.id alice) l.
Proof.
  destruct (list_handlers_scope big_db None None alice) as [Huser _].
  pose (l := get_user_notes big_db 1 0 100).
  assert (run (read_user_notes None None alice) big_db = (Return l, big_db))
    as Hrun by reflexivity.
  exists l. split; [exact Hrun|].
  destruct (Huser l big_db Hrun) as (_ & _ & Hall & _ & Hlen & _).
  split; [exact (Hlen eq_refl)|exact Hall].
Defined.


Lemma register_username_taken_witness :
  run (create_user second_alice) sample_db =
    (Raise (HTTPException HTTP_400_BAD_REQUEST "Username already taken"),
     sample_db).
Proof.
  destruct (register_username_taken sample_db second_alice alice)
    as (Hname & _).
  - by_computation.
  - reflexivity.
  - apply Hname. reflexivity.
Defined.

Lemma authenticate_user_exact_witness :
  authenticate_user sample_verify_password sample_db "alice" "pw123"
    = Some alice ∧
  authenticate_user sample_verify_password sample_db "carol" "pw123" = None.
Proof.
  split.
  - destruct (authenticate_user_exact sample_verify_password sample_db
                "alice" "pw123" sample_db_consistent) as [Hiff _].
    apply Hiff. split_and!; [by_computation|reflexivity|reflexivity].
  - destruct (authenticate_user_exact sample_verify_password sample_db
                "carol" "pw123" sample_db_consistent) as [_ Hnone].
    apply Hnone. by_computation.
Defined.

Lemma register_then_authenticate_witness :
  ∃ d', run (create_user alice_registration) empty_db = (Return alice, d') ∧
        authenticate_user sample_verify_password d' "alice" "pw123"
          = Some alice ∧
        authenticate_user sample_verify_password d' "alice" "guess" = None.
Proof.
  pose (d' := (run (create_user alice_registration) empty_db).2).
  assert (run (create_user alice_registration) empty_db = (Return alice, d'))
    as Hrun by (vm_compute; reflexivity).
  exists d'. split; [exact Hrun|].
  destruct (register_then_authenticate sample_verify_password empty_db
              alice_registration alice d' consistent_empty_db Hrun)
    as (Hok & Hbad & _).
  split; [apply Hok; reflexivity|apply Hbad; reflexivity].
Defined.

Lemma create_then_read_witness :
  ∃ n d', run (create_user_note new_note alice) sample_db = (Return n, d') ∧
          run (read_note (Note.id n) alice) d' = (Return n, d') ∧
          run (read_note (Note.id n) bob) d' =
            (Raise (HTTPException HTTP_404_NOT_FOUND "Note not found"), d').
Proof.
  pose (n := Note_new new_note 1 3).
  pose (d' := (run (create_user_note new_note alice) sample_db).2).
  assert (run (create_user_note new_note alice) sample_db = (Return n, d'))
    as Hrun by (vm_compute; reflexivity).
  exists n, d'. split; [exact Hrun|].
  destruct (create_then_read sample_db new_note alice n d'
              sample_db_consistent Hrun) as (Hown & _ & Hpriv & _).
  split; [exact Hown|]. apply Hpriv; [reflexivity|discriminate].
Defined.

Lemma visibility_update_takes_effect_witness :
  ∃ r d', run (update_note 1 make_public 1) sample_db = (Return r, d') ∧
          run (read_note 1 bob) d' = (Return r, d').
Proof.
  pose (r := patch make_public private_note).
  pose (d' := (run (update_note 1 make_public 1) sample_db).2).
  assert (run (update_note 1 make_public 1) sample_db = (Return r, d'))
    as Hrun by (vm_compute; reflexivity).
  exists r, d'. split; [exact Hrun|].
  destruct (visibility_update_takes_effect sample_db private_note make_public
              (Some true) r d' sample_db_consistent) as [Hpub _].
  - by_computation.
  - reflexivity.
  - exact Hrun.
  - destruct (Hpub eq_refl) as [Hread _]. exact (Hread bob).
Defined.

Lemma update_note_idempotent_witness :
  ∃ r d', run (update_user_note 1 title_x alice) sample_db = (Return r, d') ∧
          run (update_user_note 1 title_x alice) d' = (Return r, d').
Proof.
  pose (r := patch title_x private_note).
  pose (d' := (run (update_user_note 1 title_x alice) sample_db).2).
  assert (run (update_user_note 1 title_x alice) sample_db = (Return r, d'))
    as Hrun by (vm_compute; reflexivity).
  exists r, d'. split; [exact Hrun|].
  apply (update_note_idempotent sample_db 1 title_x alice r d'
           sample_db_consistent Hrun).
Defined.


Lemma create_then_delete_witness :
  ∃ n d1 d2,
    run (create_user_note new_note alice) sample_db = (Return n, d1) ∧
    run (delete_user_note (Note.id n) alice) d1 =
      (Return "Note deleted successfully", d2) ∧
    notes d2 = notes sample_db.
Proof.
  pose (n := Note_new new_note 1 3).
  pose (d1 := (run (create_user_note new_note alice) sample_db).2).
  assert (run (create_user_note new_note alice) sample_db = (Return n, d1))
    as Hrun by (vm_compute; reflexivity).
  destruct (create_then_delete sample_db new_note alice n d1
              sample_db_consistent Hrun) as (d2 & Hdel & Hnotes & _).
  exists n, d1, d2. split; [exact Hrun|]. split; [exact Hdel|exact Hnotes].
Defined.

Lemma delete_removes_one_row_witness :
  ∃ d1, run (delete_note 1 1) sample_db = (Return true, d1) ∧
        public_note ∈ notes d1 ∧
        (run (read_note 2 bob) d1).1 = (run (read_note 2 bob) sample_db).1.
Proof.
  pose (d1 := (run (delete_note 1 1) sample_db).2).
  assert (run (delete_note 1 1) sample_db = (Return true, d1))
    as Hrun by (vm_compute; reflexivity).
  exists d1. split; [exact Hrun|].
  destruct (delete_removes_one_row sample_db private_note (Return true) d1
              sample_db_consistent) as (_ & _ & _ & Hstay).
  - by_computation.
  - exact Hrun.
  - apply (Hstay public_note bob); [by_computation|discriminate].
Defined.


Lemma sample_world_reachable : reachable sample_world.
Proof.
  unfold sample_world. apply reachable_exec, reachable_exec, reachable_init.
Qed.

Lemma reachable_store_consistent_witness :
  consistent (db sample_world) ∧
  (∀ n, n ∈ notes (db sample_world) →
     ∃ u, u ∈ users (db sample_world) ∧ User.id u = Note.owner_id n).
Proof.
  destruct (reachable_store_consistent sample_world sample_world_reachable)
    as (Hd & _ & _ & Hfk).
  split; [exact Hd|exact Hfk].
Defined.

Lemma note_ids_never_reused_witness :
  creator (exec (call_DELETE_note 1 alice) sample_world) !! 1 = Some 1 ∧
  notes (db (exec (call_DELETE_note 1 alice) sample_world)) = [] ∧
  (∀ body current_user n d',
     run (POST_notes body current_user) (db sample_world) = (Return n, d') →
     creator sample_world !! Note.id n = None ∧
     ∀ m, m ∈ notes (db sample_world) → Note.id m ≠ Note.id n).
Proof.
  destruct (note_ids_never_reused sample_world sample_world_reachable)
    as [Hfresh Hkeep].
  split_and!; [|reflexivity|exact Hfresh].
  apply Hkeep. reflexivity.
Defined.

Lemma note_body_validation_witness :
  run (POST_notes ∅ alice) sample_db =
    (Raise RequestValidationError, sample_db) ∧
  (∀ n d', run (POST_notes plain_body alice) sample_db = (Return n, d') →
     Note.is_public n = Some false).
Proof.
  split.
  - destruct (note_body_validation sample_db ∅ alice) as [Hmissing _].
    apply Hmissing. left. reflexivity.
  - destruct (note_body_validation sample_db plain_body alice) as [_ Hdefault].
    apply Hdefault; [reflexivity|exact sample_db_consistent].
Defined.
